(** * SQNice: transaction coordinator, statement cache, close and error checking

    A shallow embedding of the access-management layer of SQNice
    ([sqnice/database.cc], [sqnice/database.hh]) together with the parts of
    the design that are only described in the specification (statement
    cache, connection pool).

    The embedded engine (SQLite) is kept abstract: it is an interface
    ([Engine]) whose answers are arbitrary.  C++ exceptions, [noexcept]
    violations and early [return]s are effects of a small monad. *)

From Stdlib Require Import ZArith Lia List String Ascii Bool.
From stdpp Require Import base gmap strings list.
Import ListNotations.

Local Open Scope string_scope.
Local Open Scope list_scope.
Local Open Scope Z_scope.

(** ** Status codes

    [enum class status : int]; the [static_assert]s of database.cc pin the
    enumerators to the SQLITE_... constants.  A status is any [int]: with
    [SQLITE_OPEN_EXRESCODE] the engine also answers extended codes. *)

Definition status : Type := Z.

Definition status_ok         : status := 0.
Definition status_error      : status := 1.
Definition status_perm       : status := 3.
Definition status_abort      : status := 4.
Definition status_busy       : status := 5.
Definition status_locked     : status := 6.
Definition status_readonly   : status := 8.
Definition status_interrupt  : status := 9.
Definition status_ioerr      : status := 10.
Definition status_corrupt    : status := 11.
Definition status_cantopen   : status := 14.
Definition status_constraint : status := 19.
Definition status_mismatch   : status := 20.
Definition status_misuse     : status := 21.
Definition status_auth       : status := 23.
Definition status_range      : status := 25.
Definition status_row        : status := 100.
Definition status_done       : status := 101.

(** The raw codes that [checking::raise] switches on. *)
Definition SQLITE_OK       : Z := 0.
Definition SQLITE_INTERNAL : Z := 2.
Definition SQLITE_NOMEM    : Z := 7.
Definition SQLITE_MISUSE   : Z := 21.
Definition SQLITE_RANGE    : Z := 25.
Definition SQLITE_NOTICE   : Z := 27.
Definition SQLITE_WARNING  : Z := 28.
Definition SQLITE_ROW      : Z := 100.
Definition SQLITE_DONE     : Z := 101.

(** Modelled from the spec: [ok(status)] is declared in sqnice/base.hh, which
    is not among the sources.  Every use ([if (!ok(rc)) return rc;],
    "execute -> row | done | EngineError") treats it as the test for
    [status::ok]. *)
Definition ok (rc : status) : bool := rc =? status_ok.

(** ** Machine integers and [snprintf]

    [txn_depth_] is an [int].  Arithmetic on it is written with the
    two's-complement wrap-around of a 32-bit [int]; every theorem below
    stays inside the range where no wrap occurs. *)

Definition INT_MIN : Z := - 2 ^ 31.
Definition INT_MAX : Z := 2 ^ 31 - 1.

Definition in_int_range (z : Z) : Prop := INT_MIN <= z <= INT_MAX.

Definition wrap_int (z : Z) : Z := (z + 2 ^ 31) mod 2 ^ 32 - 2 ^ 31.

Definition digit_char (d : Z) : ascii := ascii_of_nat (48 + Z.to_nat d).

(** Decimal digits of a non-negative number, most significant first.  The
    fuel bounds the number of digits; ten digits cover every [int]. *)
Fixpoint digits (fuel : nat) (n : Z) (acc : string) : string :=
  match fuel with
  | O => acc
  | S fuel' =>
      let acc' := String (digit_char (n mod 10)) acc in
      if n <? 10 then acc' else digits fuel' (n / 10) acc'
  end.

(** [%d] of printf, [std::to_string(int)]. *)
Definition string_of_int (z : Z) : string :=
  if z <? 0 then String "-" (digits 10 (- z) "") else digits 10 z "".

(** [snprintf(buf, size, "<prefix>%d", n)]: at most [size - 1] characters are
    stored. *)
Definition snprintf (size : nat) (prefix : string) (n : Z) : string :=
  substring 0 (size - 1) (prefix +:+ string_of_int n).

(** The SQL statements of the coordinator, as the engine boundary names
    them: [SAVEPOINT sp_<n>], [ROLLBACK TO SAVEPOINT sp_<n>],
    [RELEASE SAVEPOINT sp_<n>]. *)
Definition savepoint_sql (d : Z) : string := "SAVEPOINT sp_" +:+ string_of_int d.
Definition rollback_to_sql (d : Z) : string :=
  "ROLLBACK TO SAVEPOINT sp_" +:+ string_of_int d.
Definition release_sql (d : Z) : string :=
  "RELEASE SAVEPOINT sp_" +:+ string_of_int d.

(** ** Exceptions and outcomes *)

Inductive exception : Type :=
| logic_error (what : string)
| invalid_argument (what : string)
| bad_alloc
| database_error (what : string) (error_code : status).

(** How a call of a member function ends: it returns a value, an exception
    leaves it, or the process is terminated ([std::terminate], when an
    exception tries to leave a [noexcept] function). *)
Inductive result (A : Type) : Type :=
| Returns (a : A)
| Throws (e : exception)
| Terminates.
Arguments Returns {A} a.
Arguments Throws {A} e.
Arguments Terminates {A}.

(** Inside a function body a statement either completes normally or leaves
    the body: by [return], by an exception, or by termination. *)
Inductive completion (R A : Type) : Type :=
| Normal (a : A)
| Return (r : R)
| Throw (e : exception)
| Terminate.
Arguments Normal {R A} a.
Arguments Return {R A} r.
Arguments Throw {R A} e.
Arguments Terminate {R A}.

Section Monad.
Context {St : Type}.

(** A function of the program, over the state [S]. *)
Definition proc (A : Type) : Type := St -> result A * St.

(** A statement inside the body of a function that returns [R]. *)
Definition body (R A : Type) : Type := St -> completion R A * St.

Definition ret {R A} (a : A) : body R A := fun s => (Normal a, s).

Definition bind {R A B} (m : body R A) (k : A -> body R B) : body R B :=
  fun s =>
    match m s with
    | (Normal a, s') => k a s'
    | (Return r, s') => (Return r, s')
    | (Throw e, s') => (Throw e, s')
    | (Terminate, s') => (Terminate, s')
    end.

Definition return_ {R A} (r : R) : body R A := fun s => (Return r, s).
Definition throw {R A} (e : exception) : body R A := fun s => (Throw e, s).
Definition get {R} : body R St := fun s => (Normal s, s).
Definition gets {R A} (f : St -> A) : body R A := fun s => (Normal (f s), s).
Definition modify {R} (f : St -> St) : body R unit := fun s => (Normal tt, f s).
Definition skip {R} : body R unit := ret tt.

(** [if (b) { m }] *)
Definition when {R} (b : bool) (m : body R unit) : body R unit :=
  if b then m else skip.

(** The body of a function: falling off the end yields the value of the
    last expression, [return r] yields [r]. *)
Definition fn {R} (b : body R R) : proc R :=
  fun s =>
    match b s with
    | (Normal r, s') => (Returns r, s')
    | (Return r, s') => (Returns r, s')
    | (Throw e, s') => (Throws e, s')
    | (Terminate, s') => (Terminates, s')
    end.

(** A call of a function from inside a body. *)
Definition call {R A} (p : proc A) : body R A :=
  fun s =>
    match p s with
    | (Returns a, s') => (Normal a, s')
    | (Throws e, s') => (Throw e, s')
    | (Terminates, s') => (Terminate, s')
    end.

(** A function declared [noexcept]: an exception that would leave it
    terminates the process. *)
Definition noexcept {A} (p : proc A) : proc A :=
  fun s =>
    match p s with
    | (Throws _, s') => (Terminates, s')
    | r => r
    end.
End Monad.

Declare Scope body_scope.
Delimit Scope body_scope with body.
Notation "x <- m ;; k" := (bind m (fun x => k))
  (at level 100, m at next level, right associativity) : body_scope.
Notation "m ;; k" := (bind m (fun _ => k))
  (at level 100, right associativity) : body_scope.


(** ** The engine boundary

    What the layer consumes from the embedded engine.  The engine is a
    black box: its state is [E] and its answers are not constrained. *)

Class Engine (E : Type) : Type := {
  (** [sqlite3_get_autocommit]: false while a transaction or savepoint is
      open. *)
  sqlite3_get_autocommit : E -> bool;
  (** [sqlite3_errmsg]: the last diagnostic message. *)
  sqlite3_errmsg : E -> string;
  (** compile(handle, sql_text): the status of compiling one SQL text. *)
  sqlite3_prepare : E -> string -> status * E;
  (** execute(statement): running the compiled statement of one SQL text to
      completion: the status and the engine afterwards. *)
  statement_execute : E -> string -> status * E;
  (** raw execute(handle, sql_text): [sqlite3_exec]. *)
  sqlite3_exec : E -> string -> status * E;
}.

(** ** Compiled statements and the statement cache *)

Inductive sql_value : Type :=
| sql_null
| sql_integer (z : Z)
| sql_text (s : string).

(** Modelled from the spec: the value of a cache entry (statement_cache.hh
    and query.hh are not among the sources) is "one compiled statement
    handle plus mutable bound-parameter state": the parameters bound so far
    (an absent index is NULL) and the position of the step-cursor ([None]
    when reset). *)
Record cached_statement : Type := {
  bindings : gmap nat sql_value;
  cursor : option nat;
}.

(** Modelled from the spec: a statement compiled for the first time
    (query.hh is not among the sources) has nothing bound and its cursor
    reset. *)
Definition fresh_statement : cached_statement :=
  {| bindings := ∅; cursor := None |}.

(** Modelled from the spec: clear_bindings(statement) of the engine
    boundary (query.hh is not among the sources). *)
Definition clear_bindings (st : cached_statement) : cached_statement :=
  {| bindings := ∅; cursor := cursor st |}.

(** Modelled from the spec: reset(statement) of the engine boundary
    (query.hh is not among the sources). *)
Definition reset (st : cached_statement) : cached_statement :=
  {| bindings := bindings st; cursor := None |}.

(** Modelled from the spec: the cache (statement_cache.hh is not among the
    sources) has "key = exact SQL text (byte-for-byte)". *)
Abbreviation statement_cache := (gmap string cached_statement).

(** ** Handles

    [db_weak_ref] ([std::weak_ptr<sqlite3>]), by what [lock()] finds: nothing
    (the reference is empty, or the handle it observed has been destroyed),
    the handle that the [db_] of the same object owns, or a handle that
    other owners keep alive, with the engine behind it as they left it. *)
Inductive db_weak_ref (E : Type) : Type :=
| weak_expired
| weak_own
| weak_other (e : E).
Arguments weak_expired {E}.
Arguments weak_own {E}.
Arguments weak_other {E} e.

(** ** The database object

    The fields of [class database] that the transaction coordinator, the
    cache and [close] use, with the engine behind the handle and (ghost) the
    SQL statements executed so far, oldest first, each with the status the
    engine answered. *)
Record database {E : Type} : Type := mk_database {
  (** [db_handle db_]: [None] is nullptr, [Some n] a shared handle whose
      [use_count()] is [n], this object's reference included.  Statements
      only observe the handle ([checking::weak_db_]); iterators, blob
      streams and backups hold it. *)
  db_ : option nat;
  (** [checking::weak_db_]: the constructors assign [weak_db_ = db_];
      [connect] and [close] do not assign it. *)
  weak_db_ : db_weak_ref E;
  exceptions_ : bool;
  txn_depth_ : Z;
  txn_immediate_ : bool;
  commands_ : option statement_cache;
  queries_ : option statement_cache;
  sqlite3_ : E;
  issued : list (string * status);
  (** (ghost) The SQL texts of the compiled statements that the caller
      constructed from this object itself ([sqnice::command cmd(db, sql)],
      as the tests do) and has not destroyed.  Such a statement is a
      [checking] made from the database ([checking::checking(database&)]):
      it observes the handle and does not count in [use_count()]. *)
  live_statements : list string;
}.
Arguments database E : clear implicits.
Arguments mk_database {E}.

Section Database.
Context {E : Type} `{Engine E}.

Abbreviation db := (database E).

Definition set_db_ (v : option nat) (c : db) : db :=
  mk_database v (weak_db_ c) (exceptions_ c) (txn_depth_ c) (txn_immediate_ c)
    (commands_ c) (queries_ c) (sqlite3_ c) (issued c) (live_statements c).
Definition set_txn_depth_ (v : Z) (c : db) : db :=
  mk_database (db_ c) (weak_db_ c) (exceptions_ c) v (txn_immediate_ c)
    (commands_ c) (queries_ c) (sqlite3_ c) (issued c) (live_statements c).
Definition set_txn_immediate_ (v : bool) (c : db) : db :=
  mk_database (db_ c) (weak_db_ c) (exceptions_ c) (txn_depth_ c) v
    (commands_ c) (queries_ c) (sqlite3_ c) (issued c) (live_statements c).
Definition set_commands_ (v : option statement_cache) (c : db) : db :=
  mk_database (db_ c) (weak_db_ c) (exceptions_ c) (txn_depth_ c) (txn_immediate_ c)
    v (queries_ c) (sqlite3_ c) (issued c) (live_statements c).
Definition set_queries_ (v : option statement_cache) (c : db) : db :=
  mk_database (db_ c) (weak_db_ c) (exceptions_ c) (txn_depth_ c) (txn_immediate_ c)
    (commands_ c) v (sqlite3_ c) (issued c) (live_statements c).
Definition set_sqlite3_ (v : E) (c : db) : db :=
  mk_database (db_ c) (weak_db_ c) (exceptions_ c) (txn_depth_ c) (txn_immediate_ c)
    (commands_ c) (queries_ c) v (issued c) (live_statements c).
Definition log_sql (sql : string) (rc : status) (c : db) : db :=
  mk_database (db_ c) (weak_db_ c) (exceptions_ c) (txn_depth_ c) (txn_immediate_ c)
    (commands_ c) (queries_ c) (sqlite3_ c) (issued c ++ [(sql, rc)])
    (live_statements c).

(** [is_open()]: [db_ != nullptr]. *)
Definition is_open (c : db) : bool :=
  match db_ c with Some _ => true | None => false end.

(** ** [class checking] *)

(** [checking::raise(status, msg)]: the exception thrown for a status. *)
Definition raise_msg (rc : status) (msg : string) : exception :=
  if rc =? SQLITE_INTERNAL then logic_error msg
  else if rc =? SQLITE_NOMEM then bad_alloc
  else if (rc =? SQLITE_RANGE) || (rc =? SQLITE_MISUSE) then invalid_argument msg
  else if (rc =? SQLITE_OK) || (rc =? SQLITE_NOTICE) || (rc =? SQLITE_WARNING)
          || (rc =? SQLITE_ROW) || (rc =? SQLITE_DONE)
  then logic_error ("invalid call to throw_, err=" +:+ string_of_int rc)
  else database_error msg rc.

(** [weak_db_.lock()]: the engine behind the handle that [weak_db_]
    observes, when that handle is alive.  The handle of [db_] dies with the
    last reference to it, so a reference to it finds it while [db_] is
    set. *)
Definition lock (c : db) : option E :=
  match weak_db_ c with
  | weak_expired => None
  | weak_own => if is_open c then Some (sqlite3_ c) else None
  | weak_other e => Some e
  end.

(** [checking::raise(status) const]: the message is that of the handle
    that [weak_db_] observes, while it can be locked. *)
Definition raise {R A} (rc : status) : body (St := db) R A :=
  (c <- get ;;
   match lock c with
   | Some e => throw (raise_msg rc (sqlite3_errmsg e))
   | None => throw (raise_msg rc "")
   end)%body.

(** [checking::check(status) const] *)
Definition check (rc : status) : proc (St := db) status := fn (
  e <- gets exceptions_ ;;
  when (negb (ok rc)) (
    when (e || (rc =? status_misuse)) (
      when (negb (rc =? status_done) && negb (rc =? status_row)) (
        raise rc))) ;;
  return_ rc)%body.

(** [database::check_handle() const] *)
Definition check_handle : proc (St := db) unit := fn (
  c <- get ;;
  when (negb (is_open c)) (throw (logic_error "database is not open")) ;;
  return_ tt)%body.

(** [database::execute(sql)] *)
Definition database_execute (sql : string) : proc (St := db) status := fn (
  call check_handle ;;
  c <- get ;;
  let (rc, e) := sqlite3_exec (sqlite3_ c) sql in
  modify (fun c => log_sql sql rc (set_sqlite3_ e c)) ;;
  c <- get ;;
  when ((rc =? status_error) && exceptions_ c)
    (throw (invalid_argument (sqlite3_errmsg (sqlite3_ c)))) ;;
  rc <- call (check rc) ;;
  return_ rc)%body.

(** ** Statement cache *)

(** Modelled from the spec: [statement_cache::compile] (statement_cache.hh
    is not among the sources).  "Compiles the statement if not already
    cached for this connection, else returns the cached entry with its
    bindings pre-cleared" and its step-cursor reset; it fails "with
    EngineError carrying the engine's diagnostic code/message if the SQL is
    malformed, and with InvalidState if the owning connection is closed".
    A failure leaves through an exception: the caller gets a statement
    object, not a status.  The result is the cache afterwards; the
    statement handed out is the entry under [sql]. *)
Definition compile {R} (cache : statement_cache) (sql : string)
  : body (St := db) R statement_cache :=
  (c <- get ;;
   if is_open c then
     match cache !! sql with
     | Some st => ret (<[sql := clear_bindings (reset st)]> cache)
     | None =>
         let (rc, e) := sqlite3_prepare (sqlite3_ c) sql in
         modify (set_sqlite3_ e) ;;
         if ok rc then ret (<[sql := fresh_statement]> cache)
         else raise rc
     end
   else throw (logic_error "database is no longer open"))%body.

(** [database::command(sql)]: the command cache is created on first use.
    The [command] returned refers to the cache entry of its SQL text. *)
Definition command (sql : string) : proc (St := db) string := fn (
  c <- get ;;
  when (negb (bool_decide (is_Some (commands_ c))))
    (modify (set_commands_ (Some ∅))) ;;
  c <- get ;;
  cache <- compile (default ∅ (commands_ c)) sql ;;
  modify (set_commands_ (Some cache)) ;;
  return_ sql)%body.

(** [database::query(sql)] *)
Definition query (sql : string) : proc (St := db) string := fn (
  c <- get ;;
  when (negb (bool_decide (is_Some (queries_ c))))
    (modify (set_queries_ (Some ∅))) ;;
  c <- get ;;
  cache <- compile (default ∅ (queries_ c)) sql ;;
  modify (set_queries_ (Some cache)) ;;
  return_ sql)%body.

(** Modelled from the spec: [command::execute()] (sqnice/query.cc is not
    among the sources), "execute(statement) -> row | done | EngineError": the
    engine runs the statement and its status is returned, as the callers
    test it ([if (auto rc = command(sql).execute(); !ok(rc))]).  The SQL text
    is recorded as issued, with that status. *)
Definition execute (stmt : string) : proc (St := db) status := fn (
  c <- get ;;
  let (rc, e) := statement_execute (sqlite3_ c) stmt in
  modify (fun c => log_sql stmt rc (set_sqlite3_ e c)) ;;
  return_ rc)%body.

(** [command(sql).execute()] *)
Definition command_execute (sql : string) : proc (St := db) status := fn (
  cmd <- call (command sql) ;;
  rc <- call (execute cmd) ;;
  return_ rc)%body.

(** Modelled from the spec: binding a parameter and stepping a statement
    obtained from the command cache (query.hh is not among the sources)
    change the "mutable bound-parameter state" and the step-cursor of the
    cache entry the statement refers to. *)
Inductive statement_op : Type :=
| op_bind (idx : nat) (v : sql_value)
| op_step.

(** Modelled from the spec: what binding and stepping do to a statement
    (query.hh is not among the sources). *)
Definition apply_op (o : statement_op) (st : cached_statement) : cached_statement :=
  match o with
  | op_bind idx v => {| bindings := <[idx := v]> (bindings st); cursor := cursor st |}
  | op_step => {| bindings := bindings st;
                  cursor := Some (match cursor st with Some n => S n | None => O end) |}
  end.

(** Modelled from the spec: the caller uses a statement obtained from the
    command cache (query.hh is not among the sources); the statement and the
    cache entry are one object. *)
Definition use_command (stmt : string) (ops : list statement_op) (c : db) : db :=
  set_commands_
    (alter (fun st => fold_left (fun st o => apply_op o st) ops st) stmt
       <$> commands_ c) c.

(** Modelled from the spec: the same for a statement of the query cache
    (query.hh is not among the sources). *)
Definition use_query (stmt : string) (ops : list statement_op) (c : db) : db :=
  set_queries_
    (alter (fun st => fold_left (fun st o => apply_op o st) ops st) stmt
       <$> queries_ c) c.

(** ** Connection lifecycle *)

(** [database::close(bool immediately)] *)
Definition close (immediately : bool) : proc (St := db) status := fn (
  modify (set_commands_ None) ;;
  modify (set_queries_ None) ;;
  c <- get ;;
  match db_ c with
  | Some use_count =>
      when (1 <? use_count)%nat (rc <- call (check status_busy) ;; return_ rc) ;;
      modify (set_db_ None)
  | None => skip
  end ;;
  return_ status_ok)%body.

(** [database::in_transaction() const noexcept] *)
Definition in_transaction : proc (St := db) bool := noexcept (fn (
  call check_handle ;;
  c <- get ;;
  return_ (negb (sqlite3_get_autocommit (sqlite3_ c))))%body).

(** ** Transactions *)

(** [database::beginTransaction(bool immediate)] *)
Definition beginTransaction (immediate : bool) : proc (St := db) status := fn (
  d <- gets txn_depth_ ;;
  when (d =? 0) (
    when immediate (
      active <- call in_transaction ;;
      when active (throw (logic_error "unexpectedly already in a transaction")) ;;
      rc <- call (command_execute "BEGIN IMMEDIATE") ;;
      when (negb (ok rc)) (return_ rc)) ;;
    modify (set_txn_immediate_ immediate)) ;;
  d <- gets txn_depth_ ;;
  rc <- call (command_execute (snprintf 30 "SAVEPOINT sp_" (wrap_int (d + 1)))) ;;
  when (negb (ok rc)) (
    d <- gets txn_depth_ ;;
    when ((d =? 0) && immediate) (
      call (command_execute "ROLLBACK") ;; skip) ;;
    return_ rc) ;;
  modify (fun c => set_txn_depth_ (wrap_int (txn_depth_ c + 1)) c) ;;
  return_ status_ok)%body.

(** [database::endTransaction(bool commit)] *)
Definition endTransaction (commit : bool) : proc (St := db) status := fn (
  d <- gets txn_depth_ ;;
  when (d <=? 0) (throw (logic_error "transaction underflow")) ;;
  when (negb commit) (
    d <- gets txn_depth_ ;;
    rc <- call (command_execute (snprintf 50 "ROLLBACK TO SAVEPOINT sp_" d)) ;;
    when (negb (ok rc)) (return_ rc)) ;;
  d <- gets txn_depth_ ;;
  rc <- call (command_execute (snprintf 50 "RELEASE SAVEPOINT sp_" d)) ;;
  when (negb (ok rc)) (return_ rc) ;;
  modify (fun c => set_txn_depth_ (wrap_int (txn_depth_ c - 1)) c) ;;
  d <- gets txn_depth_ ;;
  when (d =? 0) (
    immediate <- gets txn_immediate_ ;;
    when immediate (
      active <- call in_transaction ;;
      when (negb active) (throw (logic_error "unexpectedly not in a transaction")) ;;
      rc <- call (command_execute (if commit then "COMMIT" else "ROLLBACK")) ;;
      when (negb (ok rc)) (
        modify (fun c => set_txn_depth_ (wrap_int (txn_depth_ c + 1)) c) ;;
        return_ rc))) ;;
  return_ status_ok)%body.
End Database.

(** ** Outcomes of the coordinator

    The vocabulary in which the theorems describe a call: what it left
    untouched, and the statements it issued together with the way it ended
    and the depth it left. *)

Section Outcomes.
Context {E : Type}.

(** The connection and its settings are the same: a call of the coordinator
    changes the depth, the immediate flag, the command cache, the engine and
    the log only. *)
Definition same_connection (c c' : database E) : Prop :=
  db_ c' = db_ c /\ weak_db_ c' = weak_db_ c /\ exceptions_ c' = exceptions_ c
  /\ queries_ c' = queries_ c.

(** The statements issued between [c] and [c']. *)
Definition issued_since (c c' : database E) (new : list (string * status)) : Prop :=
  issued c' = issued c ++ new.
End Outcomes.

(** The real transaction opened in front of the first savepoint. *)
Definition outer_begin (immediate : bool) (d : Z) : list (string * status) :=
  if (d =? 0) && immediate then [("BEGIN IMMEDIATE", status_ok)] else [].

(** The ways a [beginTransaction(immediate)] found at depth [d] ends: the
    result, the statements issued with their statuses, the depth left. *)
Inductive begin_trace (immediate : bool) (d : Z)
  : result status -> list (string * status) -> Z -> Prop :=
| begin_on_closed :
    d = 0 -> immediate = true ->
    begin_trace immediate d Terminates [] d
| begin_already_in_transaction :
    d = 0 -> immediate = true ->
    begin_trace immediate d
      (Throws (logic_error "unexpectedly already in a transaction")) [] d
| begin_outer_throws e :
    d = 0 -> immediate = true ->
    begin_trace immediate d (Throws e) [] d
| begin_outer_fails rc :
    d = 0 -> immediate = true -> ok rc = false ->
    begin_trace immediate d (Returns rc) [("BEGIN IMMEDIATE", rc)] d
| begin_savepoint_throws e :
    begin_trace immediate d (Throws e) (outer_begin immediate d) d
| begin_savepoint_fails rc :
    (d =? 0) && immediate = false -> ok rc = false ->
    begin_trace immediate d (Returns rc)
      (outer_begin immediate d ++ [(savepoint_sql (d + 1), rc)]) d
| begin_rolled_back rc rc' :
    d = 0 -> immediate = true -> ok rc = false ->
    begin_trace immediate d (Returns rc)
      [("BEGIN IMMEDIATE", status_ok); (savepoint_sql 1, rc); ("ROLLBACK", rc')] d
| begin_rollback_throws rc e :
    d = 0 -> immediate = true -> ok rc = false ->
    begin_trace immediate d (Throws e)
      [("BEGIN IMMEDIATE", status_ok); (savepoint_sql 1, rc)] d
| begin_done :
    begin_trace immediate d (Returns status_ok)
      (outer_begin immediate d ++ [(savepoint_sql (d + 1), status_ok)]) (d + 1).

(** The savepoint statements of an [endTransaction(commit)] up to its
    release. *)
Definition rollback_first (commit : bool) (d : Z) : list (string * status) :=
  if commit then [] else [(rollback_to_sql d, status_ok)].

(** The statement that closes the real transaction. *)
Definition final_sql (commit : bool) : string :=
  if commit then "COMMIT" else "ROLLBACK".

(** The ways an [endTransaction(commit)] found at depth [d >= 1] ends;
    [immediate] is the mode of the outermost begin. *)
Inductive end_trace (commit immediate : bool) (d : Z)
  : result status -> list (string * status) -> Z -> Prop :=
| end_rollback_throws e :
    commit = false ->
    end_trace commit immediate d (Throws e) [] d
| end_rollback_fails rc :
    commit = false -> ok rc = false ->
    end_trace commit immediate d (Returns rc) [(rollback_to_sql d, rc)] d
| end_release_throws e :
    end_trace commit immediate d (Throws e) (rollback_first commit d) d
| end_release_fails rc :
    ok rc = false ->
    end_trace commit immediate d (Returns rc)
      (rollback_first commit d ++ [(release_sql d, rc)]) d
| end_inner :
    (d =? 1) && immediate = false ->
    end_trace commit immediate d (Returns status_ok)
      (rollback_first commit d ++ [(release_sql d, status_ok)]) (d - 1)
| end_not_in_transaction :
    d = 1 -> immediate = true ->
    end_trace commit immediate d
      (Throws (logic_error "unexpectedly not in a transaction"))
      (rollback_first commit d ++ [(release_sql d, status_ok)]) 0
| end_final_throws e :
    d = 1 -> immediate = true ->
    end_trace commit immediate d (Throws e)
      (rollback_first commit d ++ [(release_sql d, status_ok)]) 0
| end_final_fails rc :
    d = 1 -> immediate = true -> ok rc = false ->
    end_trace commit immediate d (Returns rc)
      (rollback_first commit d
         ++ [(release_sql d, status_ok); (final_sql commit, rc)]) 1
| end_closed :
    d = 1 -> immediate = true ->
    end_trace commit immediate d (Returns status_ok)
      (rollback_first commit d
         ++ [(release_sql d, status_ok); (final_sql commit, status_ok)]) 0.

(** ** An engine for examples

    A small instance of the engine boundary, used to run the program on
    concrete inputs.  It keeps what SQLite documents about transactions and
    savepoints: [SAVEPOINT] outside a transaction opens one, [RELEASE] of the
    savepoint that opened the transaction commits it, [ROLLBACK TO] keeps the
    savepoint on the stack, [BEGIN] inside a transaction and [COMMIT] or
    [ROLLBACK] outside one are errors.  [faults] lists statements that the
    engine refuses once, with the status to answer. *)
Record mini_engine : Type := {
  autocommit : bool;
  savepoints : list string;
  savepoint_opened : bool;
  faults : list (string * status);
}.

Fixpoint strip_prefix (p s : string) : option string :=
  match p, s with
  | EmptyString, _ => Some s
  | String a p', String b s' => if Ascii.eqb a b then strip_prefix p' s' else None
  | String _ _, EmptyString => None
  end.

Fixpoint take_fault (sql : string) (fs : list (string * status))
  : option (status * list (string * status)) :=
  match fs with
  | [] => None
  | (q, rc) :: fs' =>
      if String.eqb sql q then Some (rc, fs')
      else match take_fault sql fs' with
           | Some (rc', rest) => Some (rc', (q, rc) :: rest)
           | None => None
           end
  end.

(** The stack below the innermost savepoint called [x]. *)
Fixpoint release_savepoint (x : string) (sp : list string) : option (list string) :=
  match sp with
  | [] => None
  | y :: sp' => if String.eqb x y then Some sp' else release_savepoint x sp'
  end.

(** The stack from the innermost savepoint called [x] on. *)
Fixpoint rollback_to_savepoint (x : string) (sp : list string) : option (list string) :=
  match sp with
  | [] => None
  | y :: sp' => if String.eqb x y then Some sp else rollback_to_savepoint x sp'
  end.

Definition mini_run (e : mini_engine) (sql : string) : status * mini_engine :=
  match take_fault sql (faults e) with
  | Some (rc, rest) =>
      (rc, {| autocommit := autocommit e; savepoints := savepoints e;
              savepoint_opened := savepoint_opened e; faults := rest |})
  | None =>
      if String.eqb sql "BEGIN IMMEDIATE" then
        if autocommit e
        then (status_ok, {| autocommit := false; savepoints := [];
                            savepoint_opened := false; faults := faults e |})
        else (status_error, e)
      else if String.eqb sql "COMMIT" || String.eqb sql "ROLLBACK" then
        if autocommit e then (status_error, e)
        else (status_ok, {| autocommit := true; savepoints := [];
                            savepoint_opened := false; faults := faults e |})
      else match strip_prefix "SAVEPOINT " sql with
      | Some x =>
          (status_ok, {| autocommit := false; savepoints := x :: savepoints e;
                         savepoint_opened :=
                           if autocommit e then true else savepoint_opened e;
                         faults := faults e |})
      | None =>
      match strip_prefix "RELEASE SAVEPOINT " sql with
      | Some x =>
          match release_savepoint x (savepoints e) with
          | Some rest =>
              let commits :=
                match rest with [] => savepoint_opened e | _ => false end in
              (status_ok, {| autocommit := commits; savepoints := rest;
                             savepoint_opened :=
                               if commits then false else savepoint_opened e;
                             faults := faults e |})
          | None => (status_error, e)
          end
      | None =>
      match strip_prefix "ROLLBACK TO SAVEPOINT " sql with
      | Some x =>
          match rollback_to_savepoint x (savepoints e) with
          | Some rest =>
              (status_ok, {| autocommit := false; savepoints := rest;
                             savepoint_opened := savepoint_opened e;
                             faults := faults e |})
          | None => (status_error, e)
          end
      | None => (status_ok, e)
      end end end
  end.

#[export] Instance mini_Engine : Engine mini_engine := {
  sqlite3_get_autocommit := autocommit;
  sqlite3_errmsg := fun _ => "";
  sqlite3_prepare := fun e _ => (status_ok, e);
  statement_execute := mini_run;
  sqlite3_exec := mini_run;
}.

Definition mini_idle (fs : list (string * status)) : mini_engine :=
  {| autocommit := true; savepoints := []; savepoint_opened := false; faults := fs |}.

(** A freshly opened connection on the example engine: nothing else holds
    the handle, exceptions are disabled with [exceptions(false)]. *)
Definition fresh_database (fs : list (string * status)) : database mini_engine :=
  mk_database (Some 1%nat) weak_own false 0 false None None (mini_idle fs) [] [].

(** A connection on which [beginTransaction(true)] has succeeded once. *)
Definition begun (fs : list (string * status)) : database mini_engine :=
  snd (beginTransaction true (fresh_database fs)).

(** The statement and the bindings of the test "SQNice insert". *)
Definition insert_contact : string :=
  "INSERT INTO contacts (name, phone) VALUES (?, ?)".

Definition bind_contact : list statement_op :=
  [op_bind 1 (sql_text "BBBB"); op_bind 2 (sql_text "555-1212"); op_step].

(** A connection with a cached command and a cached query, whose handle is
    also held by a live iterator. *)
Definition busy_database : database mini_engine :=
  set_db_ (Some 2%nat)
    (snd (query "SELECT name FROM contacts"
            (snd (command insert_contact
                    (fresh_database []))))).

(** A connection on which the caller holds a compiled statement of its
    own, as the test "SQNice close" does before the statement goes out of
    scope; nothing else holds the handle. *)
Definition statement_database : database mini_engine :=
  mk_database (Some 1%nat) weak_own false 0 false None None (mini_idle []) []
    [insert_contact].

(** ** Sequences of begin/end calls *)

Inductive txn_call : Type :=
| Begin (immediate : bool)
| End (commit : bool).

(** What one call of a sequence did: the call, the depth it found, how it
    ended and the depth it left. *)
Record call_report : Type := {
  the_call : txn_call;
  depth_before : Z;
  outcome : result status;
  depth_after : Z;
}.

Section Sequences.
Context {E : Type} `{Engine E}.

Definition invoke (k : txn_call) : proc (St := database E) status :=
  match k with
  | Begin immediate => beginTransaction immediate
  | End commit => endTransaction commit
  end.

(** The caller goes on after a returned status and after a caught
    exception; nothing follows a terminated process. *)
Fixpoint run_calls (ks : list txn_call) (c : database E)
  : list call_report * database E :=
  match ks with
  | [] => ([], c)
  | k :: ks' =>
      let (r, c1) := invoke k c in
      let report := {| the_call := k; depth_before := txn_depth_ c; outcome := r;
                       depth_after := txn_depth_ c1 |} in
      match r with
      | Terminates => ([report], c1)
      | _ => let (reports, c2) := run_calls ks' c1 in (report :: reports, c2)
      end
  end.

Definition is_begin (k : txn_call) : bool :=
  match k with Begin _ => true | End _ => false end.

Definition returned_ok (r : result status) : bool :=
  match r with Returns rc => ok rc | _ => false end.

Definition begins (ks : list txn_call) : Z :=
  Z.of_nat (length (List.filter (fun k => is_begin k) ks)).
Definition ends (ks : list txn_call) : Z :=
  Z.of_nat (length (List.filter (fun k => negb (is_begin k)) ks)).

Definition successful_begins (rs : list call_report) : Z :=
  Z.of_nat (length (List.filter (fun r => is_begin (the_call r) && returned_ok (outcome r)) rs)).
Definition successful_ends (rs : list call_report) : Z :=
  Z.of_nat (length (List.filter (fun r => negb (is_begin (the_call r)) && returned_ok (outcome r)) rs)).

(** The call returned a status, or it was an [end] met at depth 0 (and
    rejected as an underflow). *)
Definition reported (r : call_report) : Prop :=
  (exists rc, outcome r = Returns rc)
  \/ (is_begin (the_call r) = false /\ depth_before r = 0).

(** What one call did to the depth: a call that returned ok moved it by
    exactly one, up for a begin and down for an end; a call that returned
    another status, or an [end] met at depth 0, left it alone. *)
Definition depth_step (r : call_report) : Prop :=
  0 <= depth_after r
  /\ (returned_ok (outcome r) = true ->
      depth_after r = depth_before r + (if is_begin (the_call r) then 1 else -1))
  /\ (reported r -> returned_ok (outcome r) = false ->
      depth_after r = depth_before r).
End Sequences.

(** ** Connection pool *)

Module Pool.
(** Modelled from the spec: the connection pool (sqnice/pool.hh is not
    among the sources; only its test is).  A pool slot is "a Connection
    plus a borrowed/idle flag and a writable/read-only tag"; the pool is a
    "bounded collection of PoolSlots opened lazily ..., up to a configured
    maximum open count", with the observability counters [open_count] and
    [borrowed_count] kept next to the slot table under the registry lock.
    [closing] is set while a [close_all] waits for borrowed connections. *)
Record slot : Type := {
  writable : bool;
  borrowed : bool;
}.

(** Modelled from the spec: the pool (sqnice/pool.hh is not among the
    sources): the ceiling, the slot table, the two counters and the
    [close_all] flag. *)
Record pool : Type := {
  max_open : nat;
  slots : list slot;
  open_count_ : nat;
  borrowed_count_ : nat;
  closing : bool;
}.

(** Modelled from the spec: a new pool (sqnice/pool.hh is not among the
    sources) has no connection open: "slots are created on demand". *)
Definition new_pool (n : nat) : pool :=
  {| max_open := n; slots := []; open_count_ := 0; borrowed_count_ := 0;
     closing := false |}.

(** Modelled from the spec: [open_count()] and [borrowed_count()], the
    "observability counters" (sqnice/pool.hh is not among the sources). *)
Definition open_count (p : pool) : nat := open_count_ p.
Definition borrowed_count (p : pool) : nat := borrowed_count_ p.

(** The number of idle slots of the slot table. *)
Definition idle_slots (p : pool) : nat :=
  length (List.filter (fun s => negb (borrowed s)) (slots p)).

(** The first idle slot with the wanted tag. *)
Fixpoint find_idle (w : bool) (l : list slot) : option nat :=
  match l with
  | [] => None
  | s :: l' =>
      if negb (borrowed s) && Bool.eqb (writable s) w then Some O
      else S <$> find_idle w l'
  end.

(** Modelled from the spec: the end of [close_all] (sqnice/pool.hh is not
    among the sources), which "closes every open connection and resets
    counters to zero". *)
Definition drained (p : pool) : pool :=
  {| max_open := max_open p; slots := []; open_count_ := 0;
     borrowed_count_ := 0; closing := false |}.

Section Policy.
(** The further condition under which a borrow of the given kind may be
    served now ("borrowing a writable connection additionally waits if
    a writable transaction scope is currently active on any other
    writable slot"). *)
Variable admits : pool -> bool -> bool.

(** Modelled from the spec: [try_borrow(writable)] "returns an idle slot
    matching the writability requirement, opening a new connection
    against the pool's target if none idle and the open-count ceiling is
    not reached; otherwise ... returns empty immediately"; new borrows
    are rejected while a [close_all] is in progress.  A blocking
    [borrow] changes the pool like the [try_borrow] that serves it. *)
Definition try_borrow (w : bool) (p : pool) : option nat * pool :=
  if closing p || negb (admits p w) then (None, p)
  else
    match find_idle w (slots p) with
    | Some i =>
        (Some i,
         {| max_open := max_open p;
            slots := <[i := {| writable := w; borrowed := true |}]> (slots p);
            open_count_ := open_count_ p;
            borrowed_count_ := S (borrowed_count_ p);
            closing := closing p |})
    | None =>
        if (open_count_ p <? max_open p)%nat then
          (Some (length (slots p)),
           {| max_open := max_open p;
              slots := slots p ++ [{| writable := w; borrowed := true |}];
              open_count_ := S (open_count_ p);
              borrowed_count_ := S (borrowed_count_ p);
              closing := closing p |})
        else (None, p)
    end.

(** Modelled from the spec: releasing a borrowed connection "returns it
    to the idle set"; a [close_all] that was waiting for the last
    borrowed connection then completes. *)
Definition release (i : nat) (p : pool) : pool :=
  match slots p !! i with
  | Some s =>
      if borrowed s then
        let p' :=
          {| max_open := max_open p;
             slots := <[i := {| writable := writable s; borrowed := false |}]> (slots p);
             open_count_ := open_count_ p;
             borrowed_count_ := Nat.pred (borrowed_count_ p);
             closing := closing p |} in
        if closing p' && (borrowed_count_ p' =? 0)%nat then drained p' else p'
      else p
  | None => p
  end.

(** Modelled from the spec: [close_all()] "blocks until all borrowed
    connections are released, then closes every open connection and
    resets counters to zero". *)
Definition close_all (p : pool) : pool :=
  if (borrowed_count_ p =? 0)%nat then drained p
  else {| max_open := max_open p; slots := slots p;
          open_count_ := open_count_ p;
          borrowed_count_ := borrowed_count_ p; closing := true |}.

Inductive pool_op : Type :=
| Borrow (w : bool)
| Release (i : nat)
| CloseAll.

Definition apply_pool_op (o : pool_op) (p : pool) : pool :=
  match o with
  | Borrow w => snd (try_borrow w p)
  | Release i => release i p
  | CloseAll => close_all p
  end.

(** The states a pool reaches: the operations are atomic under the
    registry lock, so a concurrent history is a sequence of them. *)
Definition run_pool (ops : list pool_op) (p : pool) : pool :=
  fold_left (fun p o => apply_pool_op o p) ops p.
End Policy.

(** The counters agree with the slot table, which respects the ceiling. *)
Definition borrowed_slots (l : list slot) : nat :=
  length (List.filter (fun s => borrowed s) l).

Definition consistent (p : pool) : Prop :=
  open_count_ p = length (slots p)
  /\ borrowed_count_ p = borrowed_slots (slots p)
  /\ (length (slots p) <= max_open p)%nat.

(** The policy of the tested pool: one writer at a time. *)
Definition single_writer (p : pool) (w : bool) : bool :=
  negb w || negb (existsb (fun s => writable s && borrowed s) (slots p)).

(** The pool of the test "SQNice pool": capacity 5, one writer at a time. *)
Definition counters (p : pool) : nat * nat := (borrowed_count p, open_count p).

Definition after (ops : list pool_op) : pool :=
  run_pool single_writer ops (new_pool 5).
End Pool.

(** ** Further calls of the engine boundary

    What the rest of [sqnice/database.cc] consumes from the engine: opening
    a file, configuration, the formatter and the online backup.  As for
    [Engine], the answers are not constrained. *)

(** The options of [sqlite3_db_config] that the layer sets. *)
Inductive dbconfig : Type :=
| SQLITE_DBCONFIG_ENABLE_FKEY
| SQLITE_DBCONFIG_ENABLE_TRIGGER.

(** An argument of a [printf]-style call. *)
Inductive printf_arg : Type :=
| arg_string (s : string)
| arg_int64 (z : Z).

Class Library (E : Type) : Type := {
  (** [sqlite3_open_v2(filename, &db, flags, vfs)]: the status and the handle
      stored in [db] (null or not, also on failure). *)
  sqlite3_open_v2 : string -> Z -> option string -> status * option E;
  (** [sqlite3_db_config(db, op, value, nullptr)] *)
  sqlite3_db_config : E -> dbconfig -> Z -> status * E;
  (** [sqlite3_busy_timeout(db, ms)] *)
  sqlite3_busy_timeout : E -> Z -> status * E;
  (** [sqlite3_db_readonly(db, name)]: an [int]. *)
  sqlite3_db_readonly : E -> string -> Z;
  (** [sqlite3_vmprintf(format, args)]: the formatted text. *)
  sqlite3_vmprintf : string -> list printf_arg -> string;
}.

(** The online-backup calls of the engine.  [B] is a backup in progress
    ([sqlite3_backup*]); it holds both connections until it is finished. *)
Class Backup (E B : Type) : Type := {
  (** [sqlite3_backup_init(dest, destname, source, sourcename)]: the backup
      or null, and the destination afterwards ("an error code and error
      message are stored in the destination database connection"). *)
  sqlite3_backup_init : E -> string -> E -> string -> option B * E;
  (** [sqlite3_backup_step(bkup, pages)] *)
  sqlite3_backup_step : B -> Z -> status * B;
  sqlite3_backup_remaining : B -> Z;
  sqlite3_backup_pagecount : B -> Z;
  (** [sqlite3_backup_finish(bkup)]: the status, and the destination and
      the source connection it releases. *)
  sqlite3_backup_finish : B -> status * E * E;
  (** [sqlite3_extended_errcode(db)] *)
  sqlite3_extended_errcode : E -> status;
}.

(** ** Opening and configuring a connection *)

(** [enum class open_flags : int] (sqnice/database.hh). *)
Definition open_flags_readonly  : Z := 0x00000001.
Definition open_flags_readwrite : Z := 0x00000002.
Definition open_flags_create    : Z := 0x00000004.
Definition open_flags_uri       : Z := 0x00000040.
Definition open_flags_memory    : Z := 0x00000080.

(** [SQLITE_OPEN_EXRESCODE] of sqlite3.h. *)
Definition SQLITE_OPEN_EXRESCODE : Z := 0x02000000.

(** [database::sqlite_version()], for the number that
    [sqlite3_libversion_number()] answers; [/] and [%] of [int] truncate
    towards zero. *)
Definition sqlite_version (sqlite3_libversion_number : Z) : Z * Z * Z :=
  (Z.quot sqlite3_libversion_number 1000000,
   Z.quot sqlite3_libversion_number 1000,
   Z.rem sqlite3_libversion_number 1000).

(** The flags that [database::connect] goes on with: an in-memory database
    without an access mode is opened read-write
    ([if (!!(flags & memory) && !(flags & (readwrite | readonly)))
    flags |= readwrite]). *)
Definition connect_flags (flags : Z) : Z :=
  if negb (Z.land flags open_flags_memory =? 0)
     && (Z.land flags (Z.lor open_flags_readwrite open_flags_readonly) =? 0)
  then Z.lor flags open_flags_readwrite
  else flags.

(** The filename that [database::connect] hands to [sqlite3_open_v2]
    ([if (dbname.starts_with(":") && dbname != ":memory:" && !(flags & uri))
    dbname = "./" + dbname]). *)
Definition connect_filename (dbname : string) (flags : Z) : string :=
  if String.prefix ":" dbname && negb (String.eqb dbname ":memory:")
     && (Z.land flags open_flags_uri =? 0)
  then "./" +:+ dbname
  else dbname.

(** The statements of [database::setup]. *)
Definition setup_sql : string :=
  "PRAGMA auto_vacuum = incremental;PRAGMA journal_mode = WAL;PRAGMA synchronous=normal".

Section Configuration.
Context {E : Type} `{Engine E} `{Library E}.

Definition set_weak_db_ (v : db_weak_ref E) (c : database E) : database E :=
  mk_database (db_ c) v (exceptions_ c) (txn_depth_ c) (txn_immediate_ c)
    (commands_ c) (queries_ c) (sqlite3_ c) (issued c) (live_statements c).

(** What [weak_db_] observes once [db_] has given up its reference to the
    handle, which is not assigned with it: a reference to the handle of
    [db_] observes a handle of other owners when the handle is still
    [alive], and nothing when it was destroyed. *)
Definition unowned (alive : bool) (c : database E) : db_weak_ref E :=
  match weak_db_ c with
  | weak_own => if alive then weak_other (sqlite3_ c) else weak_expired
  | w => w
  end.

(** [db_.use_count() > 1]: the handle outlives this object's reference. *)
Definition shared (c : database E) : bool :=
  match db_ c with Some use_count => (1 <? use_count)%nat | None => false end.

(** [db_ = std::shared_ptr<sqlite3>(db, close_db)]: this object is the only
    owner of the new handle, and drops its reference to the one it had.
    [connect] does not assign [weak_db_], which therefore does not observe
    the new handle. *)
Definition own_handle (h : option E) (c : database E) : database E :=
  match h with
  | Some e => set_weak_db_ (unowned (shared c) c) (set_sqlite3_ e (set_db_ (Some 1%nat) c))
  | None => set_weak_db_ (unowned (shared c) c) (set_db_ None c)
  end.

(** [database::connect(dbname, flags, vfs)] *)
Definition connect (dbname_ : string) (flags : Z) (vfs : option string)
  : proc (St := database E) status := fn (
  call (close true) ;;
  let flags := connect_flags flags in
  let dbname := connect_filename dbname_ flags in
  let (rc, h) := sqlite3_open_v2 dbname (Z.lor flags SQLITE_OPEN_EXRESCODE) vfs in
  (if ok rc then modify (own_handle h)
   else
     e <- gets exceptions_ ;;
     when e (throw (raise_msg rc (match h with
                                  | Some e => sqlite3_errmsg e
                                  | None => "can't open database"
                                  end)))) ;;
  rc <- call (check rc) ;;
  return_ rc)%body.

(** What [connect] asks of the engine. *)
Definition connect_request (dbname : string) (flags : Z) (vfs : option string)
  : status * option E :=
  sqlite3_open_v2 (connect_filename dbname (connect_flags flags))
    (Z.lor (connect_flags flags) SQLITE_OPEN_EXRESCODE) vfs.

(** The connection after a [close] that released the handle. *)
Definition closed (c : database E) : database E :=
  set_db_ None (set_queries_ None (set_commands_ None c)).

(** No iterator, blob stream or backup holds the handle. *)
Definition sole_owner (c : database E) : Prop :=
  match db_ c with Some use_count => (use_count <= 1)%nat | None => True end.

(** [database::enable_foreign_keys(bool enable)] *)
Definition enable_foreign_keys (enable : bool) : proc (St := database E) status := fn (
  call check_handle ;;
  c <- get ;;
  let (rc, e) := sqlite3_db_config (sqlite3_ c) SQLITE_DBCONFIG_ENABLE_FKEY
                   (if enable then 1 else 0) in
  modify (set_sqlite3_ e) ;;
  rc <- call (check rc) ;;
  return_ rc)%body.

(** [database::enable_triggers(bool enable)] *)
Definition enable_triggers (enable : bool) : proc (St := database E) status := fn (
  call check_handle ;;
  c <- get ;;
  let (rc, e) := sqlite3_db_config (sqlite3_ c) SQLITE_DBCONFIG_ENABLE_TRIGGER
                   (if enable then 1 else 0) in
  modify (set_sqlite3_ e) ;;
  rc <- call (check rc) ;;
  return_ rc)%body.

(** [database::set_busy_timeout(int ms)] *)
Definition set_busy_timeout (ms : Z) : proc (St := database E) status := fn (
  call check_handle ;;
  c <- get ;;
  let (rc, e) := sqlite3_busy_timeout (sqlite3_ c) ms in
  modify (set_sqlite3_ e) ;;
  rc <- call (check rc) ;;
  return_ rc)%body.

(** [database::writeable() const noexcept] *)
Definition writeable : proc (St := database E) bool := noexcept (fn (
  call check_handle ;;
  c <- get ;;
  return_ (sqlite3_db_readonly (sqlite3_ c) "main" =? 0))%body).

(** [database::setup()]: [if (ok(rc) && writeable())] calls [writeable]
    only when the busy timeout was set. *)
Definition setup : proc (St := database E) status := fn (
  rc <- call (enable_foreign_keys true) ;;
  when (negb (ok rc)) (return_ rc) ;;
  rc <- call (set_busy_timeout 5000) ;;
  go <- (if ok rc then call writeable else ret false) ;;
  rc <- (if go then call (database_execute setup_sql) else ret rc) ;;
  return_ rc)%body.

(** [database::executef(sql, ...)] *)
Definition executef (sql : string) (args : list printf_arg)
  : proc (St := database E) status := fn (
  rc <- call (database_execute (sqlite3_vmprintf sql args)) ;;
  return_ rc)%body.

(** [database::pragma(const char* pragma, int64_t value)] *)
Definition pragma_int64 (pragma : string) (value : Z) : proc (St := database E) status :=
  executef "PRAGMA %s(%d)" [arg_string pragma; arg_int64 value].

(** [database::pragma(const char* pragma, std::string_view value)] *)
Definition pragma_string (pragma : string) (value : string)
  : proc (St := database E) status :=
  executef "PRAGMA %s(%q)" [arg_string pragma; arg_string value].

(** [database::optimize()] *)
Definition optimize : proc (St := database E) status := fn (
  w <- call writeable ;;
  when (negb w) (return_ status_ok) ;;
  rc <- call (pragma_int64 "analysis_limit" 400) ;;
  rc <- (if ok rc then call (pragma_int64 "optimize" 0xfffe) else ret rc) ;;
  return_ rc)%body.

(** The two statements of [optimize], as the formatter renders them. *)
Definition analysis_limit_sql : string :=
  sqlite3_vmprintf "PRAGMA %s(%d)" [arg_string "analysis_limit"; arg_int64 400].
Definition optimize_sql : string :=
  sqlite3_vmprintf "PRAGMA %s(%d)" [arg_string "optimize"; arg_int64 0xfffe].
End Configuration.

(** ** Moving a connection *)

(** [database::database(database&& db) noexcept]: the new object and the
    moved-from one.  The constructor initialises [checking] from
    [db.exceptions_], moves the handle, and assigns [weak_db_ = db_] and
    [db.db_ = nullptr]; the members it does not name ([txn_depth_],
    [txn_immediate_], [commands_], [queries_]) get their default member
    initialisers.  The engine behind the handle, and its log, go with the
    handle.  The [weak_db_] of the moved-from object is not assigned: it
    goes on observing the handle that the new object owns.  No statement
    has been constructed from the new object yet. *)
Definition database_move {E : Type} (db : database E) : database E * database E :=
  (mk_database (db_ db) (if is_open db then weak_own else weak_expired)
     (exceptions_ db) 0 false None None (sqlite3_ db) (issued db) [],
   set_weak_db_ (unowned (is_open db) db) (set_db_ None db)).

(** ** Backup *)

(** One call of the [backup_handler]: [(remaining, pagecount, rc)]. *)
Definition progress_report : Type := Z * Z * status.

(** [rc == status::ok || rc == status::busy || rc == status::locked] *)
Definition again (rc : status) : bool :=
  (rc =? status_ok) || (rc =? status_busy) || (rc =? status_locked).

Section Backups.
Context {E B : Type} `{Engine E} `{Backup E B}.

(** The [do ... while] of [database::backup]: the status that ended it, the
    backup afterwards and the calls made to the handler (none when the
    [std::function] is empty); the handler observes the progress and
    returns.  [fuel] bounds the number of steps: [None] when the loop is
    still running after that many. *)
Fixpoint backup_loop (fuel : nat) (handler : bool) (step_page : Z) (bkup : B)
    (seen : list progress_report) : option status * B * list progress_report :=
  match fuel with
  | O => (None, bkup, seen)
  | S fuel' =>
      let (rc, bkup) := sqlite3_backup_step bkup step_page in
      let seen :=
        if handler
        then seen ++ [(sqlite3_backup_remaining bkup, sqlite3_backup_pagecount bkup, rc)]
        else seen in
      if again rc then backup_loop fuel' handler step_page bkup seen
      else (Some rc, bkup, seen)
  end.

(** What a call of [backup] leaves: how it ended ([None]: still copying
    after [fuel] steps), the two connections and the calls made to the
    handler. *)
Record backup_run : Type := {
  backup_result : option (result status);
  backup_source : database E;
  backup_dest : database E;
  backup_progress : list progress_report;
}.

(** [database::backup(dbname, destdb, destdbname, handler, step_page)] on
    the connection [this].  Both [check_handle] calls throw the same
    exception, whichever comes first. *)
Definition backup (fuel : nat) (dbname : string) (destdb : database E)
    (destdbname : string) (handler : bool) (step_page : Z) (this : database E)
  : backup_run :=
  if negb (is_open destdb) || negb (is_open this) then
    {| backup_result := Some (Throws (logic_error "database is not open"));
       backup_source := this; backup_dest := destdb; backup_progress := [] |}
  else
    let (bkup, e) :=
      sqlite3_backup_init (sqlite3_ destdb) destdbname (sqlite3_ this) dbname in
    match bkup with
    | None =>
        let rc := sqlite3_extended_errcode e in
        {| backup_result :=
             Some (if exceptions_ this
                   then Throws (raise_msg rc (sqlite3_errmsg e))
                   else Returns rc);
           backup_source := this; backup_dest := set_sqlite3_ e destdb;
           backup_progress := [] |}
    | Some bkup =>
        match backup_loop fuel handler step_page bkup [] with
        | (Some rc, bkup, seen) =>
            let '(end_rc, dest, source) := sqlite3_backup_finish bkup in
            let rc := if rc =? status_done then end_rc else rc in
            let (r, this) := check rc (set_sqlite3_ source this) in
            {| backup_result := Some r;
               backup_source := this; backup_dest := set_sqlite3_ dest destdb;
               backup_progress := seen |}
        | (None, _, seen) =>
            {| backup_result := None;
               backup_source := this; backup_dest := destdb;
               backup_progress := seen |}
        end
    end.

(** [database::backup(destdb, handler)]; [step_page] defaults to 5. *)
Definition backup_main (fuel : nat) (destdb : database E) (handler : bool)
    (this : database E) : backup_run :=
  backup fuel "main" destdb "main" handler 5 this.

(** The status of the [n]-th step of a backup (counting from 0) and the
    backup after it. *)
Fixpoint nth_step (n : nat) (step_page : Z) (bkup : B) : status * B :=
  match n with
  | O => sqlite3_backup_step bkup step_page
  | S n' => nth_step n' step_page (snd (sqlite3_backup_step bkup step_page))
  end.

(** What the handler is told about the first [n] steps. *)
Fixpoint reports (n : nat) (step_page : Z) (bkup : B) : list progress_report :=
  match n with
  | O => []
  | S n' =>
      let (rc, bkup') := sqlite3_backup_step bkup step_page in
      (sqlite3_backup_remaining bkup', sqlite3_backup_pagecount bkup', rc)
        :: reports n' step_page bkup'
  end.
End Backups.

(** ** Integer arguments and results of SQL functions (sqnice/functions.hh)

    An integral C++ type is given by its [sizeof]; [int] has 4 bytes.  A
    conversion to an integral type keeps the value modulo 2^bits. *)
Definition to_signed (bits : Z) (z : Z) : Z :=
  (z + 2 ^ (bits - 1)) mod 2 ^ bits - 2 ^ (bits - 1).

Definition to_unsigned (bits : Z) (z : Z) : Z := z mod 2 ^ bits.

(** The values of a signed and of an unsigned type of [size] bytes. *)
Definition signed_range (size : Z) (v : Z) : Prop :=
  - 2 ^ (8 * size - 1) <= v < 2 ^ (8 * size - 1).
Definition unsigned_range (size : Z) (v : Z) : Prop := 0 <= v < 2 ^ (8 * size).

(** [arg_value::get<T>()] for a [std::signed_integral T], from what
    [get_int()] and [get_int64()] answer. *)
Definition get_signed (size : Z) (get_int get_int64 : Z) : Z :=
  if size <=? 4 then to_signed (8 * size) get_int else get_int64.

(** [arg_value::get<T>()] for a [std::unsigned_integral T]: "pin negative
    values to 0 instead of returning bogus huge numbers". *)
Definition get_unsigned (size : Z) (get_int get_int64 : Z) : Z :=
  if size <? 4 then to_unsigned (8 * size) (Z.max 0 get_int)
  else to_unsigned (8 * size) (Z.max 0 get_int64).

(** The private setters that [context_result::operator=] calls. *)
Inductive result_setter : Type :=
| set_int (value : Z)
| set_int64 (value : Z)
| set_uint64 (value : Z).

(** [context_result::operator=(std::signed_integral auto v)] *)
Definition assign_signed (size : Z) (v : Z) : result_setter :=
  if size <=? 4 then set_int (to_signed 32 v) else set_int64 (to_signed 64 v).

(** [context_result::operator=(std::unsigned_integral auto v)] *)
Definition assign_unsigned (size : Z) (v : Z) : result_setter :=
  if size <? 4 then set_int (to_signed 32 v)
  else if size <? 8 then set_int64 (to_signed 64 v)
  else set_uint64 v.

(** ** Reading decimal numbers

    The value of a decimal digit and the number that a string of decimal
    digits denotes: the inverse of [digits], used to tell the statements of
    different depths apart. *)
Definition digit_value (a : ascii) : Z := Z.of_nat (nat_of_ascii a) - 48.

Fixpoint decimal_value (s : string) : Z :=
  match s with
  | EmptyString => 0
  | String a s' => digit_value a * 10 ^ Z.of_nat (String.length s') + decimal_value s'
  end.

(** ** An engine with files, for examples

    The example engine behind a file: a read-only flag and the last
    message, an open call that refuses the path of the test "SQNice invalid
    path", configuration calls that can be refused once through [faults]
    (under the name of the call), and a formatter for [%s], [%q] and
    [%d]. *)
Record file_engine : Type := {
  connection : mini_engine;
  read_only : bool;
  message : string;
}.

Definition file_run (e : file_engine) (sql : string) : status * file_engine :=
  let (rc, m) := mini_run (connection e) sql in
  (rc, {| connection := m; read_only := read_only e; message := message e |}).

Definition file_configure (call : string) (e : file_engine) : status * file_engine :=
  match take_fault call (faults (connection e)) with
  | Some (rc, rest) =>
      (rc, {| connection :=
                {| autocommit := autocommit (connection e);
                   savepoints := savepoints (connection e);
                   savepoint_opened := savepoint_opened (connection e);
                   faults := rest |};
              read_only := read_only e; message := message e |})
  | None => (status_ok, e)
  end.

Fixpoint file_printf (format : string) (args : list printf_arg) : string :=
  match format with
  | EmptyString => EmptyString
  | String a rest =>
      match rest with
      | String _ rest' =>
          if Ascii.eqb a "%" then
            match args with
            | arg_string s :: args' => s +:+ file_printf rest' args'
            | arg_int64 z :: args' => string_of_int z +:+ file_printf rest' args'
            | [] => file_printf rest' []
            end
          else String a (file_printf rest args)
      | EmptyString => String a EmptyString
      end
  end.

Definition file_open (name : string) (flags : Z) (vfs : option string)
  : status * option file_engine :=
  if String.eqb name "/test/invalid/path"
  then (status_cantopen,
        Some {| connection := mini_idle []; read_only := true;
                message := "unable to open database file" |})
  else (status_ok,
        Some {| connection := mini_idle [];
                read_only := Z.land flags open_flags_readwrite =? 0;
                message := "not an error" |}).

#[export] Instance file_Engine : Engine file_engine := {
  sqlite3_get_autocommit := fun e => autocommit (connection e);
  sqlite3_errmsg := message;
  sqlite3_prepare := fun e _ => (status_ok, e);
  statement_execute := file_run;
  sqlite3_exec := file_run;
}.

#[export] Instance file_Library : Library file_engine := {
  sqlite3_open_v2 := file_open;
  sqlite3_db_config := fun e _ _ => file_configure "sqlite3_db_config" e;
  sqlite3_busy_timeout := fun e _ => file_configure "sqlite3_busy_timeout" e;
  sqlite3_db_readonly := fun e _ => if read_only e then 1 else 0;
  sqlite3_vmprintf := file_printf;
}.

(** A backup of the example engine copies [page_count] pages, [step_page]
    at a time; the steps first give the statuses that the source refuses
    [sqlite3_backup_step] with (its [faults]), in order.  Only the schema
    [main] exists. *)
Record file_backup : Type := {
  answers : list status;
  pages_left : Z;
  page_count : Z;
  dest_end : file_engine;
  source_end : file_engine;
}.

Definition file_backup_init (dest : file_engine) (destname : string)
    (source : file_engine) (sourcename : string) : option file_backup * file_engine :=
  if String.eqb destname "main" && String.eqb sourcename "main" then
    (Some {| answers :=
               List.map snd
                 (List.filter (fun f => String.eqb (fst f) "sqlite3_backup_step")
                    (faults (connection source)));
             pages_left := 12; page_count := 12;
             dest_end := dest; source_end := source |},
     dest)
  else
    (None, {| connection := connection dest; read_only := read_only dest;
              message := "unknown database" |}).

Definition file_backup_step (b : file_backup) (pages : Z) : status * file_backup :=
  match answers b with
  | rc :: rest =>
      (rc, {| answers := rest; pages_left := pages_left b; page_count := page_count b;
              dest_end := dest_end b; source_end := source_end b |})
  | [] =>
      let left := Z.max 0 (pages_left b - pages) in
      (if left =? 0 then status_done else status_ok,
       {| answers := []; pages_left := left; page_count := page_count b;
          dest_end := dest_end b; source_end := source_end b |})
  end.

#[export] Instance file_Backup : Backup file_engine file_backup := {
  sqlite3_backup_init := file_backup_init;
  sqlite3_backup_step := file_backup_step;
  sqlite3_backup_remaining := pages_left;
  sqlite3_backup_pagecount := page_count;
  sqlite3_backup_finish := fun b => (status_ok, dest_end b, source_end b);
  sqlite3_extended_errcode := fun e =>
    if String.eqb (message e) "not an error" then status_ok else status_error;
}.

(** A freshly opened connection on the example engine with exceptions
    enabled, as they are by default. *)
Definition raising_database (fs : list (string * status)) : database mini_engine :=
  mk_database (Some 1%nat) weak_own true 0 false None None (mini_idle fs) [] [].

(** An open connection to a file of the example engine. *)
Definition file_database (exceptions readonly : bool) (fs : list (string * status))
  : database file_engine :=
  mk_database (Some 1%nat) weak_own exceptions 0 false None None
    {| connection := mini_idle fs; read_only := readonly; message := "not an error" |}
    [] [].

(** A backup of the example engine, about to take its first step. *)
Definition starting_backup (fs : list status) : file_backup :=
  {| answers := fs; pages_left := 12; page_count := 12;
     dest_end := sqlite3_ (file_database false false []);
     source_end := sqlite3_ (file_database false false []) |}.

(** * Properties *)

(** ** Integers and formatted SQL *)

Lemma wrap_int_id (z : Z) : in_int_range z -> wrap_int z = z.
Proof.
  unfold in_int_range, INT_MIN, INT_MAX, wrap_int. intros Hz.
  rewrite Z.mod_small by lia. lia.
Qed.

Lemma digits_length (fuel : nat) (n : Z) (acc : string) :
  (String.length (digits fuel n acc) <= fuel + String.length acc)%nat.
Proof.
  revert n acc. induction fuel as [|fuel IH]; intros n acc; simpl; [lia|].
  destruct (n <? 10).
  - simpl. lia.
  - specialize (IH (n / 10) (String (digit_char (n mod 10)) acc)).
    simpl in IH. lia.
Qed.

Lemma string_of_int_length (z : Z) : (String.length (string_of_int z) <= 11)%nat.
Proof.
  unfold string_of_int. destruct (z <? 0).
  - pose proof (digits_length 10 (- z) "") as Hd. simpl in *. lia.
  - pose proof (digits_length 10 z "") as Hd. simpl in *. lia.
Qed.

Lemma string_length_app (s t : string) :
  String.length (s +:+ t) = (String.length s + String.length t)%nat.
Proof. induction s as [|a s IH]; simpl; [reflexivity|]. now rewrite IH. Qed.

Lemma substring_whole (s : string) (n : nat) :
  (String.length s <= n)%nat -> substring 0 n s = s.
Proof.
  revert n. induction s as [|a s IH]; intros n Hn.
  - destruct n; reflexivity.
  - destruct n as [|n]; simpl in *; [lia|]. rewrite IH by lia. reflexivity.
Qed.

(** The buffers of [beginTransaction] and [endTransaction] are large enough:
    nothing of the statement is cut off. *)
Lemma snprintf_fits (size : nat) (prefix : string) (n : Z) :
  (String.length prefix + 11 < size)%nat ->
  snprintf size prefix n = prefix +:+ string_of_int n.
Proof.
  intros Hs. unfold snprintf. apply substring_whole.
  rewrite string_length_app. pose proof (string_of_int_length n). lia.
Qed.

Lemma snprintf_savepoint (d : Z) : snprintf 30 "SAVEPOINT sp_" d = savepoint_sql d.
Proof. apply snprintf_fits. simpl. lia. Qed.

Lemma snprintf_rollback_to (d : Z) :
  snprintf 50 "ROLLBACK TO SAVEPOINT sp_" d = rollback_to_sql d.
Proof. apply snprintf_fits. simpl. lia. Qed.

Lemma snprintf_release (d : Z) :
  snprintf 50 "RELEASE SAVEPOINT sp_" d = release_sql d.
Proof. apply snprintf_fits. simpl. lia. Qed.

Example string_of_int_max : string_of_int INT_MAX = "2147483647".
Proof. reflexivity. Qed.

Example release_sql_3 : release_sql 3 = "RELEASE SAVEPOINT sp_3".
Proof. reflexivity. Qed.

(** ** Statements run through the command cache *)

Section Connection.
Context {E : Type} `{Engine E}.
Implicit Types c : database E.

(** [command(sql).execute()] either returns the engine's status, with the
    statement recorded as issued, or is left by an exception before the
    statement is issued (the connection is closed, or the SQL text does not
    compile).  It touches the command cache, the engine and the log only. *)
Lemma command_execute_spec (sql : string) c r c' :
  command_execute sql c = (r, c') ->
  same_connection c c' /\ txn_depth_ c' = txn_depth_ c
  /\ txn_immediate_ c' = txn_immediate_ c
  /\ ((exists rc, r = Returns rc /\ issued_since c c' [(sql, rc)]
                   /\ is_open c = true)
      \/ (exists e, r = Throws e /\ issued_since c c' [])).
Proof.
  unfold command_execute, command, compile, execute, raise, fn, call, bind,
    when, get, gets, modify, return_, throw, skip, ret, same_connection,
    issued_since.
  intros Hrun.
  repeat match type of Hrun with
         | context [bool_decide ?P] => destruct (bool_decide P); simpl in Hrun
         | context [is_open ?s] =>
             let Ho := fresh "Ho" in destruct (is_open s) eqn:Ho; simpl in Hrun
         | context [@lookup _ _ _ _ ?k ?m] => destruct (@lookup _ _ _ _ k m); simpl in Hrun
         | context [sqlite3_prepare ?e ?q] => destruct (sqlite3_prepare e q); simpl in Hrun
         | context [ok ?rc] => destruct (ok rc); simpl in Hrun
         | context [lock ?s] =>
             let Hw := fresh "Hw" in destruct (lock s) eqn:Hw; simpl in Hrun
         | context [statement_execute ?e ?q] => destruct (statement_execute e q); simpl in Hrun
         end;
    inversion Hrun; subst; clear Hrun; simpl;
    repeat split; eauto using app_nil_r.
Qed.

Lemma in_transaction_spec c r c' :
  in_transaction c = (r, c') ->
  c' = c
  /\ (is_open c = true /\ r = Returns (negb (sqlite3_get_autocommit (sqlite3_ c)))
      \/ is_open c = false /\ r = Terminates).
Proof.
  unfold in_transaction, noexcept, check_handle, fn, call, bind, when, get,
    return_, throw, skip, ret.
  destruct (is_open c); simpl; intros Hrun; inversion Hrun; auto.
Qed.

Arguments command_execute : simpl never.
Arguments in_transaction : simpl never.
Arguments snprintf : simpl never.
Arguments wrap_int : simpl never.

Ltac statement Hrun :=
  match type of Hrun with
  | context [command_execute ?sql ?s] =>
      let r := fresh "r" in
      let s1 := fresh "c" in
      let Hs := fresh "Hs" in
      let rc := fresh "rc" in
      let e := fresh "e" in
      destruct (command_execute sql s) as [r s1] eqn:Hs;
      apply command_execute_spec in Hs;
      destruct Hs as ((?&?&?&?) & ? & ? & [(rc & -> & ? & ?) | (e & -> & ?)]);
      simpl in *
  | context [in_transaction ?s] =>
      let r := fresh "r" in
      let s1 := fresh "c" in
      let Hs := fresh "Hs" in
      destruct (in_transaction s) as [r s1] eqn:Hs;
      apply in_transaction_spec in Hs;
      destruct Hs as (-> & [(? & ->) | (? & ->)]);
      simpl in *
  end.

Lemma ok_true (rc : status) : ok rc = true -> rc = status_ok.
Proof. unfold ok. intros Hrc. apply Z.eqb_eq in Hrc. exact Hrc. Qed.

Lemma same_connection_refl c : same_connection c c.
Proof. unfold same_connection. auto. Qed.

Ltac frame :=
  unfold same_connection, issued_since in *; simpl in *;
  repeat match goal with
         | Hc : _ /\ _ |- _ => destruct Hc
         end;
  repeat match goal with
         | Hi : issued ?x = _ |- _ => rewrite Hi in *; clear Hi
         end;
  rewrite <- ?app_assoc; simpl.

Ltac outcome Hrun :=
  inversion Hrun; subst; clear Hrun; frame;
  eexists; split; [first [reflexivity | symmetry; apply app_nil_r]|];
  split; [repeat split; congruence|];
  split; [simpl; congruence|];
  rewrite ?app_nil_r.

Ltac in_range := unfold in_int_range, INT_MIN, INT_MAX in *; lia.

Ltac depths :=
  repeat match goal with
         | Hq : txn_depth_ ?x = _ |- context [txn_depth_ ?x] => rewrite Hq
         end;
  rewrite ?wrap_int_id by in_range.

Ltac depths_in Hrun :=
  repeat match goal with
         | Hq : txn_depth_ ?x = _ |- _ =>
             match type of Hrun with
             | context [txn_depth_ x] => rewrite Hq in Hrun
             end
         end.

Ltac depth_is v :=
  match goal with
  | |- end_trace _ _ _ _ _ ?d => replace d with v by (simpl in *; depths; lia)
  | |- begin_trace _ _ _ _ ?d => replace d with v by (simpl in *; depths; lia)
  end.

Ltac decide_ok Hrun :=
  match type of Hrun with
  | context [ok ?rc] =>
      let Hok := fresh "Hok" in
      destruct (ok rc) eqn:Hok; [apply ok_true in Hok; subst rc|];
      simpl in Hrun
  end.

Lemma is_open_same c c' : db_ c' = db_ c -> is_open c' = is_open c.
Proof. unfold is_open. now intros ->. Qed.

(** After the release: the depth drops, and at depth 0 of an immediate
    transaction the real transaction is closed. *)
Lemma endTransaction_close (commit : bool) c c0 r c' :
  1 <= txn_depth_ c <= INT_MAX ->
  same_connection c c0 -> txn_depth_ c0 = txn_depth_ c ->
  txn_immediate_ c0 = txn_immediate_ c -> is_open c0 = true ->
  issued_since c c0 (rollback_first commit (txn_depth_ c)
                       ++ [(release_sql (txn_depth_ c), status_ok)]) ->
  fn (modify (fun c => set_txn_depth_ (wrap_int (txn_depth_ c - 1)) c) ;;
      d <- gets txn_depth_ ;;
      when (d =? 0) (
        immediate <- gets txn_immediate_ ;;
        when immediate (
          active <- call in_transaction ;;
          when (negb active) (throw (logic_error "unexpectedly not in a transaction")) ;;
          rc <- call (command_execute (if commit then "COMMIT" else "ROLLBACK")) ;;
          when (negb (ok rc)) (
            modify (fun c => set_txn_depth_ (wrap_int (txn_depth_ c + 1)) c) ;;
            return_ rc))) ;;
      return_ status_ok)%body c0 = (r, c') ->
  exists new,
    issued_since c c' new /\ same_connection c c'
    /\ txn_immediate_ c' = txn_immediate_ c
    /\ end_trace commit (txn_immediate_ c) (txn_depth_ c) r new (txn_depth_ c').
Proof.
  intros Hd Hsame Hd0 Himm Hopen Hnew Hrun.
  unfold fn, call, bind, when, get, gets, modify, return_, throw, skip, ret in Hrun.
  simpl in Hrun. rewrite Hd0 in Hrun.
  rewrite wrap_int_id in Hrun by in_range.
  destruct (txn_depth_ c - 1 =? 0) eqn:Hone; simpl in Hrun.
  - apply Z.eqb_eq in Hone. rewrite Himm in Hrun.
    assert (Hd1 : txn_depth_ c = 1) by lia.
    destruct (txn_immediate_ c) eqn:Hi; simpl in Hrun.
    + statement Hrun.
      2:{ unfold is_open in *; simpl in *; congruence. }
      destruct (sqlite3_get_autocommit (sqlite3_ c0)); simpl in Hrun.
      * outcome Hrun. rewrite Hone. now apply end_not_in_transaction.
      * statement Hrun.
        -- decide_ok Hrun.
           ++ outcome Hrun. depth_is 0. now apply end_closed.
           ++ outcome Hrun. depth_is 1. now apply end_final_fails.
        -- outcome Hrun. depth_is 0. now apply end_final_throws.
    + outcome Hrun. apply end_inner. rewrite Hd1. reflexivity.
  - outcome Hrun. apply end_inner. apply Z.eqb_neq in Hone.
    destruct (txn_depth_ c =? 1) eqn:Hq; [apply Z.eqb_eq in Hq; lia|reflexivity].
Qed.

Lemma fn_bind {R A} (m : body (St := database E) R A) (k : A -> body R R) c :
  fn (bind m k) c =
  match m c with
  | (Normal a, c1) => fn (k a) c1
  | (Return r, c1) => (Returns r, c1)
  | (Throw e, c1) => (Throws e, c1)
  | (Terminate, c1) => (Terminates, c1)
  end.
Proof. unfold fn, bind. destruct (m c) as [[a|r|e|] c1]; reflexivity. Qed.

Lemma call_statement {R} (sql : string) c :
  call (R := R) (command_execute sql) c =
  match command_execute sql c with
  | (Returns a, c1) => (Normal a, c1)
  | (Throws e, c1) => (Throw e, c1)
  | (Terminates, c1) => (Terminate, c1)
  end.
Proof. reflexivity. Qed.

Lemma endTransaction_trace (commit : bool) c r c' :
  1 <= txn_depth_ c <= INT_MAX ->
  endTransaction commit c = (r, c') ->
  exists new,
    issued_since c c' new /\ same_connection c c'
    /\ txn_immediate_ c' = txn_immediate_ c
    /\ end_trace commit (txn_immediate_ c) (txn_depth_ c) r new (txn_depth_ c').
Proof.
  intros Hd Hrun.
  unfold endTransaction in Hrun.
  rewrite fn_bind in Hrun. unfold gets at 1 in Hrun.
  rewrite fn_bind in Hrun.
  destruct (txn_depth_ c <=? 0) eqn:Hle; [lia|].
  unfold when at 1, skip, ret in Hrun.
  rewrite fn_bind in Hrun.
  destruct commit.
  - unfold when at 1 in Hrun. cbn [negb] in Hrun. unfold skip, ret in Hrun.
    cbv beta iota in Hrun.
    rewrite fn_bind in Hrun. unfold gets at 1 in Hrun.
    rewrite fn_bind, call_statement, snprintf_release in Hrun.
    statement Hrun.
    + rewrite fn_bind in Hrun. decide_ok Hrun.
      * apply (endTransaction_close true c c0); auto.
        -- repeat split; assumption.
        -- now rewrite (is_open_same c).
      * outcome Hrun. depth_is (txn_depth_ c). now apply end_release_fails.
    + outcome Hrun. depth_is (txn_depth_ c). apply (end_release_throws true).
  - unfold when at 1 in Hrun. cbn [negb] in Hrun. cbv beta iota in Hrun.
    unfold bind at 1 in Hrun. unfold gets at 1 in Hrun.
    unfold bind at 1 in Hrun. rewrite call_statement, snprintf_rollback_to in Hrun.
    statement Hrun.
    + decide_ok Hrun.
      * rewrite fn_bind in Hrun. unfold gets at 1 in Hrun.
        rewrite fn_bind, call_statement, snprintf_release in Hrun.
        statement Hrun.
        -- rewrite fn_bind in Hrun. decide_ok Hrun.
           ++ apply (endTransaction_close false c c1); auto.
              ** repeat split; congruence.
              ** congruence.
              ** congruence.
              ** rewrite (is_open_same c) by congruence. assumption.
              ** frame. depths. reflexivity.
           ++ outcome Hrun. depth_is (txn_depth_ c).
              depths. now apply (end_release_fails false).
        -- outcome Hrun. depth_is (txn_depth_ c). apply (end_release_throws false).
      * outcome Hrun. depth_is (txn_depth_ c). now apply end_rollback_fails.
    + outcome Hrun. depth_is (txn_depth_ c). now apply end_rollback_throws.
Qed.

(** The savepoint of [beginTransaction], once the real transaction (if any)
    is open. *)
Lemma beginTransaction_savepoint (immediate : bool) c c0 r c' :
  0 <= txn_depth_ c < INT_MAX ->
  same_connection c c0 -> txn_depth_ c0 = txn_depth_ c ->
  issued_since c c0 (outer_begin immediate (txn_depth_ c)) ->
  fn (d <- gets txn_depth_ ;;
      rc <- call (command_execute (snprintf 30 "SAVEPOINT sp_" (wrap_int (d + 1)))) ;;
      when (negb (ok rc)) (
        d <- gets txn_depth_ ;;
        when ((d =? 0) && immediate) (
          call (command_execute "ROLLBACK") ;; skip) ;;
        return_ rc) ;;
      modify (fun c => set_txn_depth_ (wrap_int (txn_depth_ c + 1)) c) ;;
      return_ status_ok)%body c0 = (r, c') ->
  exists new,
    issued_since c c' new /\ same_connection c c'
    /\ txn_immediate_ c' = txn_immediate_ c0
    /\ begin_trace immediate (txn_depth_ c) r new (txn_depth_ c').
Proof.
  intros Hd Hsame Hd0 Hnew Hrun.
  assert (Hw : wrap_int (txn_depth_ c + 1) = txn_depth_ c + 1)
    by (apply wrap_int_id; in_range).
  rewrite fn_bind in Hrun. unfold gets at 1 in Hrun.
  rewrite fn_bind, call_statement, Hd0, Hw, snprintf_savepoint in Hrun.
  statement Hrun.
  - rewrite fn_bind in Hrun. decide_ok Hrun.
    + unfold fn, bind, modify, return_ in Hrun. simpl in Hrun.
      outcome Hrun. depth_is (txn_depth_ c + 1). apply begin_done.
    + unfold bind, gets, when, return_, skip, ret in Hrun. simpl in Hrun.
      depths_in Hrun.
      destruct ((txn_depth_ c =? 0) && immediate) eqn:Hz; simpl in Hrun.
      * apply andb_true_iff in Hz. destruct Hz as [Hz ->]. apply Z.eqb_eq in Hz.
        rewrite call_statement in Hrun. statement Hrun.
        -- outcome Hrun. depth_is (txn_depth_ c). rewrite Hz. simpl.
           now apply begin_rolled_back.
        -- outcome Hrun. depth_is (txn_depth_ c). rewrite Hz. simpl.
           now apply begin_rollback_throws.
      * outcome Hrun. depth_is (txn_depth_ c). now apply begin_savepoint_fails.
  - outcome Hrun. depth_is (txn_depth_ c). apply begin_savepoint_throws.
Qed.

Ltac begin_outcome Hrun :=
  inversion Hrun; subst; clear Hrun; frame;
  eexists; split; [first [reflexivity | symmetry; apply app_nil_r]|];
  split; [repeat split; congruence|];
  rewrite ?app_nil_r;
  split; [|split; [intros; try lia; simpl; congruence
                  |let Hr := fresh "Hr" in
                   intros Hr ?; try discriminate Hr;
                   try (inversion Hr; subst; discriminate);
                   simpl; congruence]].

Lemma beginTransaction_trace (immediate : bool) c r c' :
  0 <= txn_depth_ c < INT_MAX ->
  beginTransaction immediate c = (r, c') ->
  exists new,
    issued_since c c' new /\ same_connection c c'
    /\ begin_trace immediate (txn_depth_ c) r new (txn_depth_ c')
    /\ (0 < txn_depth_ c -> txn_immediate_ c' = txn_immediate_ c)
    /\ (r = Returns status_ok -> txn_depth_ c = 0 -> txn_immediate_ c' = immediate).
Proof.
  intros Hd Hrun.
  unfold beginTransaction in Hrun.
  rewrite fn_bind in Hrun. unfold gets at 1 in Hrun.
  rewrite fn_bind in Hrun.
  destruct (txn_depth_ c =? 0) eqn:Hz.
  - apply Z.eqb_eq in Hz. unfold when at 1 in Hrun.
    destruct immediate.
    + unfold when at 1 in Hrun. unfold bind at 1 2 3 in Hrun.
      unfold call at 1 in Hrun.
      statement Hrun.
      * destruct (sqlite3_get_autocommit (sqlite3_ c)); simpl in Hrun.
        -- unfold bind at 1 in Hrun. rewrite call_statement in Hrun.
           statement Hrun.
           ++ decide_ok Hrun.
              ** unfold modify in Hrun.
                 destruct (beginTransaction_savepoint true c
                             (set_txn_immediate_ true c0) r c')
                   as (new & Hnew & Hsame & Himm & Htrace);
                   [ assumption
                   | repeat split; assumption
                   | assumption
                   | unfold issued_since in *; simpl; rewrite Hz; assumption
                   | exact Hrun
                   | ].
                 exists new. repeat split; try apply Hsame; auto; try lia.
              ** begin_outcome Hrun. depth_is (txn_depth_ c).
                 now apply begin_outer_fails.
           ++ begin_outcome Hrun. depth_is (txn_depth_ c).
              now apply begin_outer_throws.
        -- begin_outcome Hrun. now apply begin_already_in_transaction.
      * begin_outcome Hrun. now apply begin_on_closed.
    + destruct (beginTransaction_savepoint false c
                  (set_txn_immediate_ false c) r c')
        as (new & Hnew & Hsame & Himm & Htrace);
        [ assumption
        | unfold same_connection; simpl; auto
        | reflexivity
        | unfold issued_since, outer_begin; simpl; rewrite Hz; simpl;
          now rewrite app_nil_r
        | exact Hrun
        | ].
      exists new. repeat split; try apply Hsame; auto; try lia.
  - unfold when at 1, skip, ret in Hrun.
    destruct (beginTransaction_savepoint immediate c c r c')
      as (new & Hnew & Hsame & Himm & Htrace);
      [ assumption
      | unfold same_connection; simpl; auto
      | reflexivity
      | unfold issued_since, outer_begin; rewrite Hz; simpl; now rewrite app_nil_r
      | exact Hrun
      | ].
    apply Z.eqb_neq in Hz.
    exists new. repeat split; try apply Hsame; auto; try lia.
Qed.

(** ** The coordinator *)

Lemma issued_since_unique c c' (new new' : list (string * status)) :
  issued_since c c' new -> issued_since c c' new' -> new = new'.
Proof.
  unfold issued_since. intros Hn Hn'. rewrite Hn in Hn'.
  now apply app_inv_head in Hn'.
Qed.

Lemma endTransaction_refused (commit : bool) c :
  txn_depth_ c <= 0 ->
  endTransaction commit c = (Throws (logic_error "transaction underflow"), c).
Proof.
  intros Hd. unfold endTransaction.
  rewrite fn_bind. unfold gets at 1. rewrite fn_bind.
  destruct (txn_depth_ c <=? 0) eqn:Hle; [reflexivity|lia].
Qed.

(** C2: at depth 0 [endTransaction] is refused with the underflow error,
    whatever [commit] and the exception setting are; nothing is issued and
    nothing changes, so the depth is still 0. *)
Theorem endTransaction_underflow (commit : bool) c :
  txn_depth_ c = 0 ->
  endTransaction commit c = (Throws (logic_error "transaction underflow"), c)
  /\ txn_depth_ (snd (endTransaction commit c)) = 0
  /\ issued (snd (endTransaction commit c)) = issued c.
Proof.
  intros Hd. rewrite endTransaction_refused by lia. auto.
Qed.

Ltac sql_distinct :=
  unfold rollback_first, final_sql, rollback_to_sql, release_sql, savepoint_sql,
    outer_begin in *;
  simpl in *;
  repeat match goal with
         | Hin : _ \/ _ |- _ => destruct Hin
         | Hin : False |- _ => destruct Hin
         | Heq : (_, _) = (_, _) |- _ => inversion Heq; subst; clear Heq
         | Hb : ?b = true |- context [if ?b then _ else _] => rewrite Hb in *
         end;
  try discriminate; try congruence.

(** C10: when [ROLLBACK TO SAVEPOINT sp_<d>] or [RELEASE SAVEPOINT sp_<d>]
    returns a status that is not ok, [endTransaction] returns that status
    and the depth is still [d]; the depth changes only once the savepoint
    statements have returned ok. *)
Theorem endTransaction_savepoint_error (commit : bool) c r c' new :
  1 <= txn_depth_ c <= INT_MAX ->
  endTransaction commit c = (r, c') ->
  issued_since c c' new ->
  (forall sql rc,
      sql = rollback_to_sql (txn_depth_ c) \/ sql = release_sql (txn_depth_ c) ->
      In (sql, rc) new -> ok rc = false ->
      r = Returns rc /\ txn_depth_ c' = txn_depth_ c)
  /\ (txn_depth_ c' <> txn_depth_ c ->
      In (release_sql (txn_depth_ c), status_ok) new
      /\ (commit = false -> In (rollback_to_sql (txn_depth_ c), status_ok) new)).
Proof.
  intros Hd Hrun Hnew.
  destruct (endTransaction_trace commit c r c' Hd Hrun)
    as (new' & Hnew' & _ & _ & Htrace).
  rewrite (issued_since_unique _ _ _ _ Hnew Hnew'). clear Hnew new.
  split.
  - intros sql rc Hsql Hin Hrc.
    destruct commit; inversion Htrace; subst; sql_distinct; auto.
  - intros Hchanged.
    destruct commit; inversion Htrace; subst; try congruence;
      unfold rollback_first; simpl;
      (split; [auto | intros Hc; try discriminate Hc; auto]).
Qed.

(** C3: a successful [endTransaction] at depth [d] issues
    [ROLLBACK TO SAVEPOINT sp_<d>] first when [commit] is false, then
    [RELEASE SAVEPOINT sp_<d>] in both cases; when [commit] is true the
    release is the only savepoint statement.  Nothing else is issued but
    the [COMMIT] or [ROLLBACK] that closes the real transaction, after the
    release, when the call leaves depth 1 of an immediate transaction. *)
Theorem endTransaction_statements (commit : bool) c c' new :
  1 <= txn_depth_ c <= INT_MAX ->
  endTransaction commit c = (Returns status_ok, c') ->
  issued_since c c' new ->
  new = (if commit then [] else [(rollback_to_sql (txn_depth_ c), status_ok)])
          ++ [(release_sql (txn_depth_ c), status_ok)]
          ++ (if (txn_depth_ c =? 1) && txn_immediate_ c
              then [(if commit then "COMMIT" else "ROLLBACK", status_ok)]
              else []).
Proof.
  intros Hd Hrun Hnew.
  destruct (endTransaction_trace commit c _ c' Hd Hrun)
    as (new' & Hnew' & _ & _ & Htrace).
  rewrite (issued_since_unique _ _ _ _ Hnew Hnew'). clear Hnew new.
  inversion Htrace; subst;
    try match goal with
        | Hok : ok status_ok = false |- _ => discriminate Hok
        end.
  - match goal with Hc : _ && _ = false |- _ => rewrite Hc end.
    destruct commit; reflexivity.
  - match goal with Hc : txn_depth_ c = 1 |- _ => rewrite Hc end.
    match goal with Hc : txn_immediate_ c = true |- _ => rewrite Hc end.
    destruct commit; reflexivity.
Qed.

(** The guard in front of the final statement: when the engine reports no
    open transaction after the release, [endTransaction] throws at depth 0
    and issues nothing more. *)
Lemma endTransaction_not_in_transaction c c1 :
  txn_depth_ c = 1 -> txn_immediate_ c = true ->
  command_execute (release_sql 1) c = (Returns status_ok, c1) ->
  sqlite3_get_autocommit (sqlite3_ c1) = true ->
  endTransaction true c
  = (Throws (logic_error "unexpectedly not in a transaction"), set_txn_depth_ 0 c1).
Proof.
  intros Hd Himm Hrel Hauto.
  pose proof (command_execute_spec _ _ _ _ Hrel)
    as ((Hdb & _) & Hd1 & Himm1 & [(rc & _ & _ & Hopen) | (e & He & _)]);
    [|discriminate He].
  unfold endTransaction, fn, call, bind, when, get, gets, modify, return_,
    throw, skip, ret.
  simpl. rewrite Hd. simpl. rewrite snprintf_release, Hd, Hrel. simpl.
  rewrite Hd1, Hd, wrap_int_id by in_range. simpl. rewrite Himm1, Himm. simpl.
  change (1 - 1) with 0.
  destruct (in_transaction (set_txn_depth_ 0 c1)) as [r s1] eqn:Hin.
  apply in_transaction_spec in Hin.
  destruct Hin as (-> & [(_ & ->) | (Hclosed & _)]).
  - simpl. rewrite Hauto. reflexivity.
  - unfold is_open in *. simpl in Hclosed. rewrite Hdb in Hclosed. congruence.
Qed.






(** ** Sequences of calls *)

Lemma invoke_depth (k : txn_call) c r c' :
  0 <= txn_depth_ c < INT_MAX ->
  invoke k c = (r, c') ->
  depth_step {| the_call := k; depth_before := txn_depth_ c; outcome := r;
                depth_after := txn_depth_ c' |}
  /\ txn_depth_ c' <= txn_depth_ c + 1.
Proof.
  intros Hd Hrun. unfold depth_step, reported. simpl.
  destruct k as [immediate|commit]; simpl in Hrun.
  - destruct (beginTransaction_trace immediate c r c' Hd Hrun)
      as (new & _ & _ & Htrace & _).
    inversion Htrace; subst; simpl;
      repeat split; try lia; try discriminate; try congruence;
      intros [[rc0 Hrc0]|[Hb _]]; try discriminate; congruence.
  - destruct (Z.eq_dec (txn_depth_ c) 0) as [Hz|Hz].
    + rewrite endTransaction_refused in Hrun by lia.
      inversion Hrun; subst. simpl. repeat split; try lia; discriminate.
    + assert (Hr : 1 <= txn_depth_ c <= INT_MAX) by in_range.
      destruct (endTransaction_trace commit c r c' Hr Hrun)
        as (new & _ & _ & _ & Htrace).
      inversion Htrace; subst; simpl;
        repeat split; try lia; try discriminate; try congruence;
        intros [[rc0 Hrc0]|[_ Hb]]; try discriminate; try congruence; try lia.
Qed.

Lemma run_calls_depth (ks : list txn_call) : forall c reports c',
  0 <= txn_depth_ c ->
  txn_depth_ c + Z.of_nat (length ks) <= INT_MAX ->
  run_calls ks c = (reports, c') ->
  0 <= txn_depth_ c'
  /\ Forall depth_step reports
  /\ (Forall reported reports ->
      txn_depth_ c' = txn_depth_ c + successful_begins reports - successful_ends reports).
Proof.
  induction ks as [|k ks IH]; intros c reports c' Hd Hlen Hrun; simpl in Hrun.
  - inversion Hrun; subst. unfold successful_begins, successful_ends. simpl.
    repeat split; auto; lia.
  - destruct (invoke k c) as [r c1] eqn:Hk.
    assert (Hr : 0 <= txn_depth_ c < INT_MAX)
      by (simpl length in Hlen; lia).
    destruct (invoke_depth k c r c1 Hr Hk) as [Hstep Hle].
    set (report := {| the_call := k; depth_before := txn_depth_ c;
                      outcome := r; depth_after := txn_depth_ c1 |}) in *.
    assert (Hnow : 0 <= txn_depth_ c1) by apply Hstep.
    assert (Hone : reported report ->
                   txn_depth_ c1 =
                   txn_depth_ c + successful_begins [report] - successful_ends [report]).
    { intros Hrep. destruct Hstep as (_ & Hok & Hno).
      unfold successful_begins, successful_ends. simpl.
      destruct (returned_ok r) eqn:Hret.
      - specialize (Hok Hret). simpl in Hok.
        destruct (is_begin k); simpl; lia.
      - specialize (Hno Hrep Hret). simpl in Hno.
        rewrite !andb_false_r. simpl. lia. }
    assert (Hcons : forall rest,
               successful_begins (report :: rest) =
               successful_begins [report] + successful_begins rest
               /\ successful_ends (report :: rest) =
                  successful_ends [report] + successful_ends rest).
    { intros rest. unfold successful_begins, successful_ends. simpl.
      destruct (is_begin k), (returned_ok r); simpl; lia. }
    destruct (run_calls ks c1) as [rest c2] eqn:Hrest.
    assert (Hlen' : txn_depth_ c1 + Z.of_nat (length ks) <= INT_MAX)
      by (simpl length in Hlen; lia).
    destruct (IH c1 rest c2 Hnow Hlen' Hrest) as (Hpos & Hsteps & Hsum).
    destruct r as [rc|e|]; inversion Hrun; subst; clear Hrun.
    + split; [assumption|]. split; [constructor; assumption|].
      intros Hall. inversion Hall; subst.
      destruct (Hcons rest) as [-> ->]. rewrite Hsum by assumption.
      rewrite Hone by assumption. lia.
    + split; [assumption|]. split; [constructor; assumption|].
      intros Hall. inversion Hall; subst.
      destruct (Hcons rest) as [-> ->]. rewrite Hsum by assumption.
      rewrite Hone by assumption. lia.
    + split; [assumption|]. split; [constructor; [assumption|constructor]|].
      intros Hall. inversion Hall; subst. now apply Hone.
Qed.

(** C1, as the code has it: after any sequence of begin/end calls on a
    connection at depth 0 the depth is not negative; every call that
    returned ok moved the depth by exactly one (up for a begin, down for an
    end), every call that returned another status and every end met at
    depth 0 left it alone; and when each call of the sequence returned a
    status or was an end met at depth 0, the depth is the number of begins
    that returned ok minus the number of ends that returned ok. *)
Theorem depth_is_successful_begins_minus_ends (ks : list txn_call) c reports c' :
  txn_depth_ c = 0 ->
  Z.of_nat (length ks) <= INT_MAX ->
  run_calls ks c = (reports, c') ->
  0 <= txn_depth_ c'
  /\ Forall depth_step reports
  /\ (Forall reported reports ->
      txn_depth_ c' = successful_begins reports - successful_ends reports).
Proof.
  intros Hd Hlen Hrun.
  destruct (run_calls_depth ks c reports c') as (Hpos & Hsteps & Hsum);
    try assumption; try lia.
  repeat split; try assumption.
  intros Hall. rewrite (Hsum Hall). lia.
Qed.

(** ** Error checking *)

Lemma raise_msg_misuse (msg : string) :
  raise_msg status_misuse msg = invalid_argument msg.
Proof. reflexivity. Qed.

(** C8: a misuse is raised whatever the exception setting is.  [check]
    turns [status::misuse] into [std::invalid_argument], an end without a
    begin and the use of a closed connection raise [std::logic_error];
    with exceptions disabled [check] hands every other status back to the
    caller. *)
Theorem misuse_is_always_raised c :
  check status_misuse c =
    (Throws (invalid_argument
               (match lock c with Some e => sqlite3_errmsg e | None => "" end)),
     c)
  /\ (forall commit, txn_depth_ c = 0 ->
       endTransaction commit c = (Throws (logic_error "transaction underflow"), c))
  /\ (is_open c = false ->
       check_handle c = (Throws (logic_error "database is not open"), c)
       /\ forall sql, database_execute sql c =
                       (Throws (logic_error "database is not open"), c))
  /\ (exceptions_ c = false ->
       forall rc, rc <> status_misuse -> check rc c = (Returns rc, c)).
Proof.
  split; [|split; [|split]].
  - unfold check, raise, fn, bind, when, get, gets, return_, throw. simpl.
    destruct (exceptions_ c); simpl; destruct (lock c); reflexivity.
  - intros commit Hd. apply endTransaction_refused. lia.
  - intros Hclosed. split.
    + unfold check_handle, fn, bind, when, get, throw. rewrite Hclosed. reflexivity.
    + intros sql. unfold database_execute, check_handle, fn, call, bind, when, get, throw.
      rewrite Hclosed. reflexivity.
  - intros Hoff rc Hrc.
    unfold check, raise, fn, bind, when, get, gets, return_, throw, skip, ret.
    simpl. rewrite Hoff. simpl.
    destruct (negb (ok rc)); simpl; [|reflexivity].
    destruct (rc =? status_misuse) eqn:Hm; [apply Z.eqb_eq in Hm; contradiction|].
    reflexivity.
Qed.

(** ** Closing the connection *)

(** C6, as the code has it: [close] destroys the command cache and the
    query cache before it returns, whatever its result.  What decides the
    rest is [use_count()] alone.  When the handle is still referenced
    elsewhere ([use_count() > 1]: iterators, blob streams and backups hold
    it) the call ends through [check(status::busy)], returned or raised
    according to the exception setting, and the connection stays open.
    Otherwise it returns ok and the connection is closed, whatever
    compiled statements of the caller are alive: they are neither counted
    nor touched. *)
Theorem close_invalidates_caches (immediately : bool) c r c' :
  close immediately c = (r, c') ->
  commands_ c' = None /\ queries_ c' = None
  /\ live_statements c' = live_statements c
  /\ match db_ c with
     | Some use_count =>
         if (1 <? use_count)%nat then
           db_ c' = db_ c
           /\ r = (if exceptions_ c
                   then Throws (database_error
                                  (match lock c with
                                   | Some e => sqlite3_errmsg e
                                   | None => ""
                                   end)
                                  status_busy)
                   else Returns status_busy)
         else db_ c' = None /\ r = Returns status_ok
     | None => db_ c' = None /\ r = Returns status_ok
     end.
Proof.
  unfold close, check, raise, fn, call, bind, when, get, gets, modify, return_,
    throw, skip, ret.
  simpl. intros Hrun.
  destruct (db_ c) as [n|] eqn:Hdb; simpl in Hrun.
  - destruct (1 <? n)%nat eqn:Hn; simpl in Hrun.
    + destruct (exceptions_ c); simpl in Hrun.
      * change (lock (set_queries_ None (set_commands_ None c))) with (lock c) in Hrun.
        destruct (lock c); simpl in Hrun; inversion Hrun; subst; simpl; auto.
      * inversion Hrun; subst; simpl; auto.
    + inversion Hrun; subst; simpl; auto.
  - inversion Hrun; subst; simpl; auto.
Qed.

(** ** The statement cache *)

Lemma compile_spec {R} (cache : statement_cache) (sql : string) c a c' :
  compile (R := R) cache sql c = (Normal a, c') ->
  a !! sql = Some fresh_statement.
Proof.
  unfold compile, raise, bind, get, modify, ret, throw.
  destruct (is_open c); [|discriminate].
  destruct (cache !! sql) as [st|] eqn:Hst.
  - intros Hrun. inversion Hrun; subst. now rewrite lookup_insert_eq.
  - destruct (sqlite3_prepare (sqlite3_ c) sql) as [rc e]. simpl.
    destruct (ok rc).
    + intros Hrun. inversion Hrun; subst. now rewrite lookup_insert_eq.
    + destruct (lock _); discriminate.
Qed.

Lemma compile_never_returns {R} (cache : statement_cache) (sql : string) c (r : R) c' :
  compile cache sql c <> (Return r, c').
Proof.
  unfold compile, raise, bind, get, modify, ret, throw. simpl.
  destruct (is_open c); [|discriminate].
  destruct (cache !! sql); [discriminate|].
  destruct (sqlite3_prepare (sqlite3_ c) sql) as [rc e]. simpl.
  destruct (ok rc); [discriminate|].
  destruct (lock _); discriminate.
Qed.

Lemma command_spec (sql : string) c h c' :
  command sql c = (Returns h, c') ->
  h = sql
  /\ exists cache, commands_ c' = Some cache /\ cache !! sql = Some fresh_statement.
Proof.
  unfold command, fn, bind at 1 2 3 4, get, when, modify, return_, skip, ret.
  intros Hrun.
  destruct (negb (bool_decide (is_Some (commands_ c)))); simpl in Hrun;
    destruct (compile _ sql _) as [[a|?|?|] s1] eqn:Hc; simpl in Hrun;
    inversion Hrun; subst; simpl;
    try (apply compile_spec in Hc; eauto; fail);
    now apply compile_never_returns in Hc.
Qed.

Lemma query_spec (sql : string) c h c' :
  query sql c = (Returns h, c') ->
  h = sql
  /\ exists cache, queries_ c' = Some cache /\ cache !! sql = Some fresh_statement.
Proof.
  unfold query, fn, bind at 1 2 3 4, get, when, modify, return_, skip, ret.
  intros Hrun.
  destruct (negb (bool_decide (is_Some (queries_ c)))); simpl in Hrun;
    destruct (compile _ sql _) as [[a|?|?|] s1] eqn:Hc; simpl in Hrun;
    inversion Hrun; subst; simpl;
    try (apply compile_spec in Hc; eauto; fail);
    now apply compile_never_returns in Hc.
Qed.

(** C7: the statement handed out by a second [command(S)] (or [query(S)])
    on the same connection is the cache entry of the first, with no
    parameter bound and its cursor reset, whatever was bound to or stepped
    on the statement of the first call: it is in the state of a statement
    compiled for the first time. *)
Theorem compile_twice_does_not_leak (sql : string) (ops : list statement_op)
    c first c1 second c2 :
  (command sql c = (Returns first, c1) ->
   command sql (use_command first ops c1) = (Returns second, c2) ->
   second = first
   /\ exists cache, commands_ c2 = Some cache /\ cache !! second = Some fresh_statement)
  /\ (query sql c = (Returns first, c1) ->
      query sql (use_query first ops c1) = (Returns second, c2) ->
      second = first
      /\ exists cache, queries_ c2 = Some cache /\ cache !! second = Some fresh_statement).
Proof.
  split; intros Hfirst Hsecond.
  - apply command_spec in Hfirst. apply command_spec in Hsecond.
    destruct Hfirst as [-> _]. destruct Hsecond as [-> Hcache]. auto.
  - apply query_spec in Hfirst. apply query_spec in Hsecond.
    destruct Hfirst as [-> _]. destruct Hsecond as [-> Hcache]. auto.
Qed.
End Connection.

(** ** The coordinator on the example engine *)

Example begun_depth : txn_depth_ (begun []) = 1 /\ txn_immediate_ (begun []) = true.
Proof. split; reflexivity. Qed.

Example nested_rollback_trace :
  issued (snd (run_calls [Begin true; Begin false; End false; End true]
                 (fresh_database [])))
  = [("BEGIN IMMEDIATE", 0); ("SAVEPOINT sp_1", 0); ("SAVEPOINT sp_2", 0);
     ("ROLLBACK TO SAVEPOINT sp_2", 0); ("RELEASE SAVEPOINT sp_2", 0);
     ("RELEASE SAVEPOINT sp_1", 0); ("COMMIT", 0)].
Proof. reflexivity. Qed.

Lemma endTransaction_underflow_witness :
  let c := fresh_database [] in
  endTransaction true c = (Throws (logic_error "transaction underflow"), c)
  /\ txn_depth_ (snd (endTransaction true c)) = 0
  /\ issued (snd (endTransaction true c)) = issued c.
Proof. intros c. apply endTransaction_underflow. reflexivity. Defined.

(** The sequence [end] alone: the depth is 0, not [0 - 1]. *)
Lemma depth_differs_from_begins_minus_ends :
  let ks := [End true] in
  let c' := snd (run_calls ks (fresh_database [])) in
  txn_depth_ c' = 0 /\ begins ks - ends ks = -1
  /\ txn_depth_ c' <> begins ks - ends ks.
Proof. repeat split. vm_compute. discriminate. Qed.

Lemma depth_is_successful_begins_minus_ends_witness :
  let ks := [Begin true; Begin false; End false; End true; End true] in
  let run := run_calls ks (fresh_database []) in
  0 <= txn_depth_ (snd run)
  /\ Forall depth_step (fst run)
  /\ (Forall reported (fst run) ->
      txn_depth_ (snd run) = successful_begins (fst run) - successful_ends (fst run)).
Proof.
  intros ks run.
  apply (depth_is_successful_begins_minus_ends ks (fresh_database [])).
  - reflexivity.
  - vm_compute. discriminate.
  - apply surjective_pairing.
Defined.

(** With the release failing, the call returns the engine's status at the
    depth it found. *)
Lemma endTransaction_savepoint_error_witness :
  let c := begun [("RELEASE SAVEPOINT sp_1", status_busy)] in
  let run := endTransaction false c in
  fst run = Returns status_busy /\ txn_depth_ (snd run) = txn_depth_ c.
Proof.
  intros c run.
  apply (proj1 (endTransaction_savepoint_error false c (fst run) (snd run)
                  [("ROLLBACK TO SAVEPOINT sp_1", status_ok);
                   ("RELEASE SAVEPOINT sp_1", status_busy)]
                  ltac:(vm_compute; split; discriminate)
                  (surjective_pairing _)
                  eq_refl)
          "RELEASE SAVEPOINT sp_1" status_busy).
  - right. reflexivity.
  - simpl. auto.
  - reflexivity.
Defined.

(** Leaving depth 1 of an immediate transaction with [commit = true]
    issues the release of the savepoint and then [COMMIT]. *)
Example endTransaction_commit_closes_transaction :
  let c := begun [] in
  let run := endTransaction true c in
  txn_depth_ c = 1
  /\ fst run = Returns status_ok
  /\ issued (snd run) = issued c ++ [("RELEASE SAVEPOINT sp_1", status_ok);
                                      ("COMMIT", status_ok)].
Proof. repeat split. Qed.

Lemma endTransaction_statements_witness :
  let c := begun [] in
  issued_since c (snd (endTransaction true c))
    [("RELEASE SAVEPOINT sp_1", status_ok); ("COMMIT", status_ok)]
  /\ [("RELEASE SAVEPOINT sp_1", status_ok); ("COMMIT", status_ok)]
     = [] ++ [(release_sql (txn_depth_ c), status_ok)]
          ++ (if (txn_depth_ c =? 1) && txn_immediate_ c
              then [("COMMIT", status_ok)] else []).
Proof.
  intros c. split; [reflexivity|].
  apply (endTransaction_statements true c (snd (endTransaction true c))
           [("RELEASE SAVEPOINT sp_1", status_ok); ("COMMIT", status_ok)]).
  - vm_compute. split; discriminate.
  - vm_compute. reflexivity.
  - reflexivity.
Defined.


Example beginTransaction_rolled_back :
  let run := beginTransaction true (fresh_database [("SAVEPOINT sp_1", status_busy)]) in
  fst run = Returns status_busy /\ txn_depth_ (snd run) = 0
  /\ issued (snd run) = [("BEGIN IMMEDIATE", status_ok); ("SAVEPOINT sp_1", status_busy);
                          ("ROLLBACK", status_ok)].
Proof. repeat split. Qed.



(** ** Error checking, close and the cache on the example engine *)

Lemma misuse_is_always_raised_witness :
  let c := fresh_database [] in
  exceptions_ c = false
  /\ check status_misuse c = (Throws (invalid_argument ""), c)
  /\ endTransaction false c = (Throws (logic_error "transaction underflow"), c)
  /\ check status_busy c = (Returns status_busy, c).
Proof.
  intros c.
  pose proof (misuse_is_always_raised c) as (Hmisuse & Hunderflow & _ & Hother).
  split; [reflexivity|].
  split; [exact Hmisuse|].
  split; [exact (Hunderflow false eq_refl)|].
  apply (Hother eq_refl). discriminate.
Defined.

(** A compiled statement is alive and nothing else holds the handle:
    [close] does not fail with [status::busy], it returns ok and the
    connection is closed. *)
Lemma close_with_live_statement :
  let c := statement_database in
  let run := close true c in
  live_statements c = [insert_contact]
  /\ fst run = Returns status_ok
  /\ fst run <> Returns status_busy
  /\ is_open c = true /\ is_open (snd run) = false
  /\ live_statements (snd run) = [insert_contact].
Proof. repeat split. discriminate. Qed.

Example busy_database_caches :
  is_Some (commands_ busy_database) /\ is_Some (queries_ busy_database).
Proof. split; eexists; reflexivity. Qed.

Lemma close_invalidates_caches_witness :
  let run := close true busy_database in
  commands_ (snd run) = None /\ queries_ (snd run) = None
  /\ live_statements (snd run) = live_statements busy_database
  /\ db_ (snd run) = db_ busy_database /\ fst run = Returns status_busy.
Proof.
  intros run.
  exact (close_invalidates_caches true busy_database (fst run) (snd run)
           (surjective_pairing _)).
Defined.

(** The first statement carries its bindings until the second call. *)
Example bindings_before_second_compile :
  let c1 := snd (command insert_contact (fresh_database [])) in
  (commands_ (use_command insert_contact bind_contact c1)) ≫= (.!! insert_contact)
  = Some {| bindings := <[2%nat := sql_text "555-1212"]>
                          (<[1%nat := sql_text "BBBB"]> ∅);
            cursor := Some O |}.
Proof. reflexivity. Qed.

Lemma compile_twice_does_not_leak_witness :
  let c := fresh_database [] in
  let c1 := snd (command insert_contact c) in
  let c2 := snd (command insert_contact (use_command insert_contact bind_contact c1)) in
  insert_contact = insert_contact
  /\ exists cache,
       commands_ c2 = Some cache /\ cache !! insert_contact = Some fresh_statement.
Proof.
  intros c c1 c2.
  apply (proj1 (compile_twice_does_not_leak insert_contact bind_contact
                  c insert_contact c1 insert_contact c2)).
  - reflexivity.
  - reflexivity.
Defined.

(** ** The connection pool *)

Module PoolProperties.
Import Pool.
Local Open Scope nat_scope.

Lemma slots_partition (l : list slot) :
  length l = borrowed_slots l + length (List.filter (fun s => negb (borrowed s)) l).
Proof.
  unfold borrowed_slots. induction l as [|s l IH]; simpl; [reflexivity|].
  destruct (borrowed s); simpl; lia.
Qed.

Lemma find_idle_spec (w : bool) (l : list slot) (i : nat) :
  find_idle w l = Some i ->
  exists s, l !! i = Some s /\ borrowed s = false.
Proof.
  revert i. induction l as [|s l IH]; intros i; simpl; [discriminate|].
  destruct (negb (borrowed s) && Bool.eqb (writable s) w) eqn:Hs.
  - intros Hi. inversion Hi; subst. exists s. split; [reflexivity|].
    apply andb_true_iff in Hs. destruct Hs as [Hs _].
    now apply negb_true_iff in Hs.
  - destruct (find_idle w l) as [j|]; simpl; [|discriminate].
    intros Hi. inversion Hi; subst. now apply IH.
Qed.

Lemma borrowed_slots_insert (l : list slot) (i : nat) (s s' : slot) :
  l !! i = Some s ->
  borrowed_slots (<[i := s']> l) + (if borrowed s then 1 else 0)
  = borrowed_slots l + (if borrowed s' then 1 else 0).
Proof.
  unfold borrowed_slots. revert i.
  induction l as [|x l IH]; intros i Hi; [discriminate|].
  destruct i as [|i]; simpl in *.
  - inversion Hi; subst. destruct (borrowed s), (borrowed s'); simpl; lia.
  - specialize (IH i Hi). destruct (borrowed x); simpl; lia.
Qed.

Lemma borrowed_slots_app (l : list slot) (s : slot) :
  borrowed_slots (l ++ [s]) = borrowed_slots l + (if borrowed s then 1 else 0).
Proof.
  unfold borrowed_slots. rewrite List.filter_app, length_app. simpl.
  destruct (borrowed s); reflexivity.
Qed.

Section Policy.
Variable admits : pool -> bool -> bool.

Lemma drained_consistent (p : pool) : consistent (drained p).
Proof. unfold consistent, drained, borrowed_slots. simpl. lia. Qed.

Lemma try_borrow_consistent (w : bool) (p : pool) :
  consistent p ->
  consistent (snd (try_borrow admits w p))
  /\ max_open (snd (try_borrow admits w p)) = max_open p.
Proof.
  intros (Ho & Hb & Hm). unfold try_borrow.
  destruct (closing p || negb (admits p w)); [repeat split; assumption|].
  destruct (find_idle w (slots p)) as [i|] eqn:Hi.
  - destruct (find_idle_spec _ _ _ Hi) as (s & Hs & Hidle).
    pose proof (borrowed_slots_insert (slots p) i s
                  {| writable := w; borrowed := true |} Hs) as Hins.
    rewrite Hidle in Hins. simpl in Hins.
    unfold consistent. simpl. rewrite length_insert. repeat split; lia.
  - destruct (open_count_ p <? max_open p) eqn:Hlt.
    + apply Nat.ltb_lt in Hlt.
      unfold consistent. simpl.
      rewrite length_app, borrowed_slots_app. simpl. repeat split; lia.
    + repeat split; assumption.
Qed.

Lemma release_consistent (i : nat) (p : pool) :
  consistent p ->
  consistent (release i p) /\ max_open (release i p) = max_open p.
Proof.
  intros (Ho & Hb & Hm). unfold release.
  destruct (slots p !! i) as [s|] eqn:Hs; [|repeat split; assumption].
  destruct (borrowed s) eqn:Hbs; [|repeat split; assumption].
  pose proof (borrowed_slots_insert (slots p) i s
                {| writable := writable s; borrowed := false |} Hs) as Hins.
  rewrite Hbs in Hins. simpl in Hins.
  match goal with
  | |- context [if ?b then _ else _] => destruct b
  end.
  - split; [apply drained_consistent|reflexivity].
  - unfold consistent. simpl. rewrite length_insert. repeat split; lia.
Qed.

Lemma close_all_consistent (p : pool) :
  consistent p -> consistent (close_all p) /\ max_open (close_all p) = max_open p.
Proof.
  intros Hp. unfold close_all.
  destruct (borrowed_count_ p =? 0).
  - split; [apply drained_consistent|reflexivity].
  - split; [exact Hp|reflexivity].
Qed.

Lemma run_pool_consistent (ops : list pool_op) : forall p,
  consistent p ->
  consistent (run_pool admits ops p)
  /\ max_open (run_pool admits ops p) = max_open p.
Proof.
  unfold run_pool.
  induction ops as [|o ops IH]; intros p Hp; simpl; [split; auto|].
  assert (Hstep : consistent (apply_pool_op admits o p)
                  /\ max_open (apply_pool_op admits o p) = max_open p).
  { destruct o as [w|i|]; simpl.
    - now apply try_borrow_consistent.
    - now apply release_consistent.
    - now apply close_all_consistent. }
  destruct Hstep as [Hc Hmax].
  destruct (IH _ Hc) as [Hc' Hmax']. split; [assumption|congruence].
Qed.

(** C9: in every state a pool reaches from creation, under any admission
    policy, [borrowed_count() <= open_count() <= max_open] and
    [open_count() - borrowed_count()] is the number of idle slots. *)
Theorem pool_counters_invariant (n : nat) (ops : list pool_op) :
  let p := run_pool admits ops (new_pool n) in
  borrowed_count p <= open_count p <= max_open p
  /\ open_count p - borrowed_count p = idle_slots p.
Proof.
  intros p.
  assert (Hnew : consistent (new_pool n))
    by (unfold consistent, new_pool, borrowed_slots; simpl; lia).
  destruct (run_pool_consistent ops _ Hnew) as [(Ho & Hb & Hm) _].
  fold p in Ho, Hb, Hm.
  pose proof (slots_partition (slots p)) as Hpart.
  unfold borrowed_count, open_count, idle_slots. lia.
Qed.
End Policy.
End PoolProperties.

(** The steps of the test "SQNice pool": the counters after each step are
    the ones the test checks. *)
Module PoolTest.
Import Pool.

Example pool_test_counters :
  counters (after [Borrow true]) = (1, 1)%nat
  /\ fst (try_borrow single_writer true (after [Borrow true])) = None
  /\ counters (after [Borrow true; Release 0]) = (0, 1)%nat
  /\ counters (after [Borrow true; Release 0; Borrow false; Borrow false;
                       Borrow false; Borrow false]) = (4, 5)%nat
  /\ fst (try_borrow single_writer false
            (after [Borrow true; Release 0; Borrow false; Borrow false;
                    Borrow false; Borrow false])) = None
  /\ counters (after [Borrow true; Release 0; Borrow false; Borrow false;
                       Borrow false; Borrow false; Release 1]) = (3, 5)%nat
  /\ counters (after [Borrow true; Release 0; Borrow false; Borrow false;
                       Borrow false; Borrow false; Release 1; Borrow false;
                       Borrow true]) = (5, 5)%nat
  /\ counters (after [Borrow true; Release 0; Borrow false; Borrow false;
                       Borrow false; Borrow false; Release 1; Borrow false;
                       Borrow true; Release 0; Release 1; Release 2; Release 3;
                       Release 4]) = (0, 5)%nat
  /\ counters (after [Borrow true; Release 0; Borrow false; Borrow false;
                       Borrow false; Borrow false; Release 1; Borrow false;
                       Borrow true; Release 0; Release 1; Release 2; Release 3;
                       Release 4; CloseAll]) = (0, 0)%nat.
Proof. repeat split. Qed.
End PoolTest.

(** * The rest of sqnice/database.cc and the SQL-function interface *)

(** ** Error checking *)

Section Checking.
Context {E : Type} `{Engine E}.
Implicit Types c : database E.

(** A [database_error] keeps the message and the status it was raised
    for. *)
Lemma raise_msg_database_error (rc : status) (msg what : string) (code : status) :
  raise_msg rc msg = database_error what code -> what = msg /\ code = rc.
Proof.
  unfold raise_msg.
  repeat match goal with
         | |- context [if ?b then _ else _] => destruct b
         end; intros Heq; inversion Heq; auto.
Qed.

Lemma check_outcome (rc : status) c :
  check rc c =
  (if negb (ok rc) && (exceptions_ c || (rc =? status_misuse))
      && negb (rc =? status_done) && negb (rc =? status_row)
   then Throws (raise_msg rc (match lock c with
                              | Some e => sqlite3_errmsg e
                              | None => ""
                              end))
   else Returns rc,
   c).
Proof.
  unfold check, raise, fn, bind, when, get, gets, return_, throw, skip, ret.
  simpl.
  destruct (ok rc); simpl; [reflexivity|].
  destruct (exceptions_ c || (rc =? status_misuse)); simpl; [|reflexivity].
  destruct (rc =? status_done); simpl; [reflexivity|].
  destruct (rc =? status_row); simpl; [reflexivity|].
  destruct (lock c); reflexivity.
Qed.

(** X1: [check] never changes the connection and never alters the status:
    it either returns the status it was given or throws the exception that
    [raise] makes of it.  It returns exactly for [ok], [row] and [done],
    and, with exceptions disabled, for every status but [misuse]. *)
Theorem check_returns_iff (rc : status) c :
  snd (check rc c) = c
  /\ (fst (check rc c) = Returns rc <->
      rc = status_ok \/ rc = status_row \/ rc = status_done
      \/ (exceptions_ c = false /\ rc <> status_misuse))
  /\ (fst (check rc c) = Returns rc
      \/ fst (check rc c)
         = Throws (raise_msg rc (match lock c with
                                 | Some e => sqlite3_errmsg e
                                 | None => ""
                                 end))).
Proof.
  rewrite check_outcome. simpl. split; [reflexivity|].
  unfold ok.
  destruct (rc =? status_ok) eqn:Hok; simpl.
  { apply Z.eqb_eq in Hok. split; [|auto]. split; auto. }
  destruct (rc =? status_done) eqn:Hdone; simpl.
  { apply Z.eqb_eq in Hdone. rewrite andb_false_r. simpl. split; [|auto].
    split; auto. }
  destruct (rc =? status_row) eqn:Hrow; simpl.
  { apply Z.eqb_eq in Hrow. rewrite andb_false_r. split; [|auto]. split; auto. }
  apply Z.eqb_neq in Hok, Hdone, Hrow.
  destruct (exceptions_ c); simpl.
  - split; [|auto]. split; [discriminate|].
    intros [?|[?|[?|[? _]]]]; congruence.
  - destruct (rc =? status_misuse) eqn:Hm; simpl.
    + apply Z.eqb_eq in Hm. split; [|auto]. split; [discriminate|].
      intros [?|[?|[?|[_ ?]]]]; congruence.
    + apply Z.eqb_neq in Hm. split; auto. split; auto.
Qed.

(** X2: a [database_error] thrown by [check] carries the status that was
    checked, which is not [ok], and it is only thrown with exceptions
    enabled.  Its message is that of the handle which [weak_db_] observes,
    and empty when [weak_db_.lock()] finds none.  That handle need not be
    the one of [db_]: an object that was never given a handle by a
    constructor throws with an empty message also while it is open, and an
    object that is closed or connected elsewhere throws with the message
    of the handle it observes as long as others keep that alive. *)
Theorem check_database_error (rc : status) c (what : string) (code : status) :
  fst (check rc c) = Throws (database_error what code) ->
  code = rc /\ ok rc = false /\ exceptions_ c = true
  /\ what = (match lock c with Some e => sqlite3_errmsg e | None => "" end).
Proof.
  rewrite check_outcome. simpl.
  destruct (ok rc) eqn:Hok; simpl; [discriminate|].
  destruct (exceptions_ c) eqn:Hex; simpl.
  - destruct (negb (rc =? status_done) && negb (rc =? status_row)); [|discriminate].
    intros Hthrow. inversion Hthrow as [Hmsg].
    apply raise_msg_database_error in Hmsg. destruct Hmsg as [-> ->]. auto.
  - destruct (rc =? status_misuse) eqn:Hm; simpl; [|discriminate].
    apply Z.eqb_eq in Hm. subst rc. simpl. discriminate.
Qed.

(** ** [database::execute] and [database::close] *)

Lemma database_execute_outcome (sql : string) c :
  is_open c = true ->
  database_execute sql c =
  (let c1 := log_sql sql (fst (sqlite3_exec (sqlite3_ c) sql))
               (set_sqlite3_ (snd (sqlite3_exec (sqlite3_ c) sql)) c) in
   (if (fst (sqlite3_exec (sqlite3_ c) sql) =? status_error) && exceptions_ c
    then Throws (invalid_argument (sqlite3_errmsg (sqlite3_ c1)))
    else fst (check (fst (sqlite3_exec (sqlite3_ c) sql)) c1),
    c1)).
Proof.
  intros Hopen.
  unfold database_execute, check_handle, fn, call, bind, when, get, modify,
    return_, throw, skip, ret.
  rewrite Hopen. simpl.
  destruct (sqlite3_exec (sqlite3_ c) sql) as [rc e]. simpl.
  destruct ((rc =? status_error) && exceptions_ c); simpl; [reflexivity|].
  rewrite check_outcome. simpl.
  match goal with
  | |- context [if ?b then Throws ?x else _] => destruct b; reflexivity
  end.
Qed.

Lemma database_execute_closed (sql : string) c :
  is_open c = false ->
  database_execute sql c = (Throws (logic_error "database is not open"), c).
Proof.
  intros Hclosed.
  unfold database_execute, check_handle, fn, call, bind, when, get, throw.
  rewrite Hclosed. reflexivity.
Qed.

(** On an open connection [execute] hands the text to the engine once,
    whatever comes of it, and only throws for a status that is not ok. *)
Lemma database_execute_issued (sql : string) c r c' :
  is_open c = true ->
  database_execute sql c = (r, c') ->
  is_open c' = true
  /\ exists rc, issued c' = issued c ++ [(sql, rc)]
                /\ (r = Returns rc \/ exists e, r = Throws e /\ ok rc = false).
Proof.
  intros Hopen Hrun. rewrite database_execute_outcome in Hrun by assumption.
  simpl in Hrun. inversion Hrun as [[Hr Hc]]. clear Hrun.
  split; [exact Hopen|].
  eexists. split; [reflexivity|].
  destruct (fst (sqlite3_exec (sqlite3_ c) sql) =? status_error) eqn:Herr; simpl.
  - apply Z.eqb_eq in Herr. rewrite Herr.
    destruct (exceptions_ c) eqn:Hex; [right; eauto|].
    left. rewrite check_outcome. simpl. rewrite Hex. reflexivity.
  - rewrite check_outcome. simpl.
    destruct (ok (fst (sqlite3_exec (sqlite3_ c) sql))); simpl; [auto|].
    match goal with
    | |- context [if ?b then Throws ?x else _] => destruct b; eauto
    end.
Qed.

(** X3: with exceptions enabled, a status that [execute] returns is [ok],
    [row] or [done]: an error never comes back as a return value.  The
    status is the engine's answer to the text, which was handed to the
    engine once. *)
Theorem database_execute_with_exceptions (sql : string) c (rc : status) c' :
  exceptions_ c = true ->
  database_execute sql c = (Returns rc, c') ->
  (rc = status_ok \/ rc = status_row \/ rc = status_done)
  /\ sqlite3_exec (sqlite3_ c) sql = (rc, sqlite3_ c')
  /\ issued c' = issued c ++ [(sql, rc)].
Proof.
  intros Hex Hrun.
  destruct (is_open c) eqn:Hopen;
    [|rewrite database_execute_closed in Hrun by assumption; discriminate].
  rewrite database_execute_outcome in Hrun by assumption.
  destruct (sqlite3_exec (sqlite3_ c) sql) as [rc0 e] eqn:Hexec.
  simpl in Hrun. rewrite Hex, andb_true_r in Hrun.
  destruct (rc0 =? status_error); [discriminate|].
  inversion Hrun as [[Hr Hc]]. clear Hrun.
  rewrite check_outcome in Hr. simpl in Hr. rewrite Hex in Hr. simpl in Hr.
  unfold ok in Hr.
  destruct (rc0 =? status_ok) eqn:Hok; simpl in Hr.
  { inversion Hr; subst rc. apply Z.eqb_eq in Hok. auto. }
  destruct (rc0 =? status_done) eqn:Hdone; simpl in Hr.
  { inversion Hr; subst rc. apply Z.eqb_eq in Hdone. auto. }
  destruct (rc0 =? status_row) eqn:Hrow; simpl in Hr.
  { inversion Hr; subst rc. apply Z.eqb_eq in Hrow. auto. }
  discriminate Hr.
Qed.

(** X4: with exceptions disabled, [execute] on an open connection returns
    the engine's status as it is, error or not; [misuse] alone is still
    raised.  The only change is that the engine ran the text. *)
Theorem database_execute_without_exceptions (sql : string) c (rc : status) (e : E) :
  exceptions_ c = false -> is_open c = true ->
  sqlite3_exec (sqlite3_ c) sql = (rc, e) -> rc <> status_misuse ->
  database_execute sql c = (Returns rc, log_sql sql rc (set_sqlite3_ e c)).
Proof.
  intros Hex Hopen Hexec Hrc.
  rewrite database_execute_outcome by assumption.
  rewrite Hexec. simpl. rewrite Hex, andb_false_r.
  f_equal. rewrite check_outcome. simpl. rewrite Hex.
  apply Z.eqb_neq in Hrc. rewrite Hrc. simpl. rewrite andb_false_r. reflexivity.
Qed.

(** X5: with exceptions enabled, the plain [status::error] of the engine
    (a SQL text it cannot run) leaves [execute] as [std::invalid_argument]
    with the message the engine has after the call, not as a
    [database_error]. *)
Theorem database_execute_sql_error (sql : string) c (e : E) :
  exceptions_ c = true -> is_open c = true ->
  sqlite3_exec (sqlite3_ c) sql = (status_error, e) ->
  database_execute sql c
  = (Throws (invalid_argument (sqlite3_errmsg e)),
     log_sql sql status_error (set_sqlite3_ e c)).
Proof.
  intros Hex Hopen Hexec.
  rewrite database_execute_outcome by assumption.
  rewrite Hexec. simpl. rewrite Hex. reflexivity.
Qed.

Lemma close_outcome (immediately : bool) c :
  close immediately c =
  (let c0 := set_queries_ None (set_commands_ None c) in
   match db_ c with
   | Some use_count =>
       if (1 <? use_count)%nat then (fst (check status_busy c0), c0)
       else (Returns status_ok, set_db_ None c0)
   | None => (Returns status_ok, c0)
   end).
Proof.
  unfold close, fn, call, bind, when, get, modify, return_, skip, ret. simpl.
  destruct (db_ c) as [n|]; simpl; [|reflexivity].
  destruct (1 <? n)%nat; simpl; [|reflexivity].
  rewrite check_outcome. simpl.
  match goal with
  | |- context [if ?b then Throws ?x else _] => destruct b; reflexivity
  end.
Qed.

(** X6: [close] sends no statement to the engine and leaves the
    transaction depth, the immediate flag and the exception setting as it
    found them: a transaction that is open is not ended by the layer, and
    the depth counter outlives the connection. *)
Theorem close_keeps_transaction_state (immediately : bool) c :
  txn_depth_ (snd (close immediately c)) = txn_depth_ c
  /\ txn_immediate_ (snd (close immediately c)) = txn_immediate_ c
  /\ issued (snd (close immediately c)) = issued c
  /\ exceptions_ (snd (close immediately c)) = exceptions_ c.
Proof.
  rewrite close_outcome. cbv zeta.
  destruct (db_ c) as [n|]; [|repeat split].
  destruct (1 <? n)%nat; repeat split.
Qed.

(** X7: once [close] has returned ok the connection is closed for good:
    another [close] returns ok and changes nothing, and every [execute]
    throws "database is not open" without reaching the engine. *)
Theorem close_is_final (immediately : bool) c c' :
  close immediately c = (Returns status_ok, c') ->
  is_open c' = false
  /\ (forall once_more, close once_more c' = (Returns status_ok, c'))
  /\ (forall sql, database_execute sql c'
                  = (Throws (logic_error "database is not open"), c')).
Proof.
  intros Hrun. rewrite close_outcome in Hrun. simpl in Hrun.
  assert (Hclosed : db_ c' = None /\ commands_ c' = None /\ queries_ c' = None).
  { destruct (db_ c) as [n|] eqn:Hdb.
    - destruct (1 <? n)%nat.
      + rewrite check_outcome in Hrun. simpl in Hrun.
        destruct (exceptions_ c); simpl in Hrun; discriminate.
      + inversion Hrun; subst; simpl; auto.
    - inversion Hrun; subst; simpl; auto. }
  destruct Hclosed as (Hdb' & Hc' & Hq').
  assert (Hopen : is_open c' = false) by (unfold is_open; now rewrite Hdb').
  split; [assumption|]. split.
  - intros once_more. rewrite close_outcome. simpl. rewrite Hdb'.
    f_equal. destruct c'; simpl in *; subst; reflexivity.
  - intros sql. now apply database_execute_closed.
Qed.
End Checking.

(** A moved-from object is closed, and still throws with the message of
    the handle that the new object owns. *)
Lemma check_database_error_witness :
  let c := snd (database_move (file_database true false [])) in
  status_busy = status_busy /\ ok status_busy = false
  /\ exceptions_ c = true
  /\ "not an error" = (match lock c with Some e => sqlite3_errmsg e | None => "" end).
Proof.
  intros c.
  apply (check_database_error status_busy c "not an error" status_busy).
  reflexivity.
Defined.

Example moved_from_message :
  let c := snd (database_move (file_database true false [])) in
  is_open c = false
  /\ fst (check status_busy c) = Throws (database_error "not an error" status_busy).
Proof. split; reflexivity. Qed.

Lemma database_execute_with_exceptions_witness :
  let c := raising_database [] in
  let sql := "CREATE TABLE contacts (id INTEGER PRIMARY KEY)" in
  (status_ok = status_ok \/ status_ok = status_row \/ status_ok = status_done)
  /\ sqlite3_exec (sqlite3_ c) sql = (status_ok, sqlite3_ (snd (database_execute sql c)))
  /\ issued (snd (database_execute sql c)) = issued c ++ [(sql, status_ok)].
Proof.
  intros c sql.
  apply (database_execute_with_exceptions sql c status_ok (snd (database_execute sql c))).
  - reflexivity.
  - reflexivity.
Defined.

(** The insert of the test "SQNice insert" meets the [UNIQUE] constraint:
    with exceptions disabled the status comes back. *)
Lemma database_execute_without_exceptions_witness :
  let sql := "INSERT INTO contacts (name, phone) VALUES ('AAAA', '1234')" in
  let c := fresh_database [(sql, status_constraint)] in
  database_execute sql c
  = (Returns status_constraint,
     log_sql sql status_constraint (set_sqlite3_ (mini_idle []) c)).
Proof.
  intros sql c.
  apply (database_execute_without_exceptions sql c status_constraint (mini_idle [])).
  - reflexivity.
  - reflexivity.
  - reflexivity.
  - discriminate.
Defined.

Lemma database_execute_sql_error_witness :
  let sql := "INSERT INTO contacts VALUES" in
  let c := raising_database [(sql, status_error)] in
  database_execute sql c
  = (Throws (invalid_argument (sqlite3_errmsg (mini_idle []))),
     log_sql sql status_error (set_sqlite3_ (mini_idle []) c)).
Proof.
  intros sql c.
  apply (database_execute_sql_error sql c (mini_idle [])); reflexivity.
Defined.

Lemma close_is_final_witness :
  let c' := snd (close true (fresh_database [])) in
  is_open c' = false
  /\ (forall once_more, close once_more c' = (Returns status_ok, c'))
  /\ (forall sql, database_execute sql c'
                  = (Throws (logic_error "database is not open"), c')).
Proof.
  intros c'. apply (close_is_final true (fresh_database []) c'). reflexivity.
Defined.

(** ** More on the coordinator *)

Lemma digit_value_char (d : Z) : 0 <= d < 10 -> digit_value (digit_char d) = d.
Proof.
  intros Hd. unfold digit_value, digit_char.
  rewrite nat_ascii_embedding by lia. lia.
Qed.

(** [decimal_value] reads back what [digits] writes. *)
Lemma decimal_value_digits (fuel : nat) : forall n acc,
  0 <= n < 10 ^ Z.of_nat fuel ->
  decimal_value (digits fuel n acc)
  = n * 10 ^ Z.of_nat (String.length acc) + decimal_value acc.
Proof.
  induction fuel as [|fuel IH]; intros n acc Hn.
  - simpl in *. assert (n = 0) by lia. subst. lia.
  - cbn [digits].
    assert (Hdigit : 0 <= n mod 10 < 10) by (apply Z.mod_pos_bound; lia).
    destruct (n <? 10) eqn:Hlt.
    + apply Z.ltb_lt in Hlt. cbn [decimal_value].
      rewrite digit_value_char by assumption.
      rewrite Z.mod_small by lia. reflexivity.
    + apply Z.ltb_ge in Hlt.
      rewrite IH.
      * cbn [decimal_value String.length].
        rewrite digit_value_char by assumption.
        rewrite Nat2Z.inj_succ, Z.pow_succ_r by lia.
        pose proof (Z.div_mod n 10 ltac:(lia)) as Hdm.
        set (p := 10 ^ Z.of_nat (String.length acc)) in *.
        set (q := n / 10) in *. set (m := n mod 10) in *.
        replace (n * p) with ((10 * q + m) * p) by (rewrite <- Hdm; reflexivity).
        ring.
      * rewrite Nat2Z.inj_succ, Z.pow_succ_r in Hn by lia.
        split; [apply Z.div_pos; lia|].
        apply Z.div_lt_upper_bound; lia.
Qed.

Lemma digits_head (fuel : nat) : forall n acc,
  (0 < fuel)%nat ->
  exists d rest, 0 <= d < 10 /\ digits fuel n acc = String (digit_char d) rest.
Proof.
  induction fuel as [|fuel IH]; intros n acc Hf; [lia|].
  cbn [digits].
  assert (Hdigit : 0 <= n mod 10 < 10) by (apply Z.mod_pos_bound; lia).
  destruct (n <? 10); [eauto|].
  destruct fuel as [|fuel]; [simpl; eauto|].
  apply IH. lia.
Qed.

Lemma string_of_int_injective (z z' : Z) :
  in_int_range z -> in_int_range z' ->
  string_of_int z = string_of_int z' -> z = z'.
Proof.
  unfold in_int_range, INT_MIN, INT_MAX, string_of_int.
  intros Hz Hz' Heq.
  assert (Hvalue : forall n, 0 <= n <= 2 ^ 31 -> decimal_value (digits 10 n "") = n).
  { intros n Hn. rewrite decimal_value_digits.
    - simpl. lia.
    - change (10 ^ Z.of_nat 10) with 10000000000.
      change (2 ^ 31) with 2147483648 in Hn. lia. }
  assert (Hsign : forall n rest, String "-" rest <> digits 10 n "").
  { intros n rest Hs.
    destruct (digits_head 10 n "" ltac:(lia)) as (d & rest' & Hd & Hdigits).
    rewrite Hdigits in Hs. inversion Hs as [[Hc Hr]].
    apply (f_equal digit_value) in Hc. rewrite digit_value_char in Hc by assumption.
    change (digit_value "-") with (-3) in Hc. lia. }
  remember (digits 10 (- z) "") as m eqn:Hm.
  remember (digits 10 (- z') "") as m' eqn:Hm'.
  remember (digits 10 z "") as p eqn:Hp.
  remember (digits 10 z' "") as p' eqn:Hp'.
  destruct (z <? 0) eqn:Hneg, (z' <? 0) eqn:Hneg'.
  - apply Z.ltb_lt in Hneg, Hneg'. injection Heq as Heq.
    apply (f_equal decimal_value) in Heq. subst m m'.
    rewrite !Hvalue in Heq by lia. lia.
  - exfalso. subst p'. exact (Hsign _ _ Heq).
  - exfalso. symmetry in Heq. subst p. exact (Hsign _ _ Heq).
  - apply Z.ltb_ge in Hneg, Hneg'.
    apply (f_equal decimal_value) in Heq. subst p p'.
    rewrite !Hvalue in Heq by lia. lia.
Qed.

Lemma string_app_inv_head (p s t : string) : p +:+ s = p +:+ t -> s = t.
Proof.
  induction p as [|a p IH]; simpl; intros Heq; [assumption|].
  injection Heq as Heq. auto.
Qed.

(** X8: different depths give different statements: the [SAVEPOINT],
    [ROLLBACK TO SAVEPOINT] and [RELEASE SAVEPOINT] texts of two depths of
    an [int] are never the same text, so a statement always names the
    savepoint of its own depth. *)
Theorem savepoint_names_distinct (d d' : Z) :
  in_int_range d -> in_int_range d' -> d <> d' ->
  savepoint_sql d <> savepoint_sql d'
  /\ rollback_to_sql d <> rollback_to_sql d'
  /\ release_sql d <> release_sql d'.
Proof.
  intros Hd Hd' Hne.
  unfold savepoint_sql, rollback_to_sql, release_sql.
  repeat split; intros Heq; apply string_app_inv_head in Heq;
    apply string_of_int_injective in Heq; auto.
Qed.

Lemma savepoint_names_distinct_witness :
  savepoint_sql 1 <> savepoint_sql 2
  /\ rollback_to_sql 1 <> rollback_to_sql 2
  /\ release_sql 1 <> release_sql 2.
Proof.
  apply (savepoint_names_distinct 1 2).
  - unfold in_int_range, INT_MIN, INT_MAX. lia.
  - unfold in_int_range, INT_MIN, INT_MAX. lia.
  - lia.
Defined.

Section Coordinator.
Context {E : Type} `{Engine E}.
Implicit Types c : database E.

Arguments command_execute : simpl never.
Arguments in_transaction : simpl never.
Arguments snprintf : simpl never.
Arguments wrap_int : simpl never.

Ltac distinct_sql :=
  unfold rollback_first, final_sql, rollback_to_sql, release_sql, savepoint_sql,
    outer_begin in *;
  simpl in *;
  repeat match goal with
         | Hin : _ \/ _ |- _ => destruct Hin
         | Hin : False |- _ => destruct Hin
         | Heq : (_, _) = (_, _) |- _ => inversion Heq; subst; clear Heq
         | Hb : ?b = true |- context [if ?b then _ else _] => rewrite Hb in *
         end;
  try discriminate; try congruence.

(** Inside a transaction [beginTransaction] is its savepoint statement and
    nothing else. *)
Lemma beginTransaction_nested (immediate : bool) c :
  txn_depth_ c <> 0 ->
  beginTransaction immediate c =
  match command_execute (snprintf 30 "SAVEPOINT sp_" (wrap_int (txn_depth_ c + 1))) c with
  | (Returns rc, c1) =>
      if ok rc then (Returns status_ok, set_txn_depth_ (wrap_int (txn_depth_ c1 + 1)) c1)
      else (Returns rc, c1)
  | (Throws e, c1) => (Throws e, c1)
  | (Terminates, c1) => (Terminates, c1)
  end.
Proof.
  intros Hd. apply Z.eqb_neq in Hd.
  unfold beginTransaction.
  rewrite fn_bind. unfold gets at 1. rewrite fn_bind, Hd.
  unfold when at 1, skip, ret.
  rewrite fn_bind. unfold gets at 1.
  rewrite fn_bind, call_statement.
  destruct (command_execute _ c) as [r c1] eqn:Hs.
  apply command_execute_spec in Hs.
  destruct Hs as (_ & Hd1 & _ & [(rc & -> & _) | (e & -> & _)]); [|reflexivity].
  rewrite fn_bind.
  destruct (ok rc); simpl; [reflexivity|].
  unfold fn, bind, gets, when, return_. rewrite Hd1, Hd. reflexivity.
Qed.

(** X9: inside a transaction the [immediate] argument of
    [beginTransaction] has no effect: at any depth other than 0 the call
    with [true] and the call with [false] do the same, result and state
    (no [BEGIN IMMEDIATE], no [ROLLBACK], the immediate flag untouched). *)
Theorem beginTransaction_nested_ignores_immediate c :
  txn_depth_ c <> 0 ->
  beginTransaction true c = beginTransaction false c.
Proof.
  intros Hd.
  rewrite (beginTransaction_nested true) by assumption.
  rewrite (beginTransaction_nested false) by assumption.
  reflexivity.
Qed.

(** X10: when the [BEGIN IMMEDIATE] of a [beginTransaction(true)] at depth
    0 returns a status that is not ok, the call returns that status, the
    depth is still 0, and [BEGIN IMMEDIATE] is the only statement issued:
    no savepoint, no [ROLLBACK]. *)
Theorem beginTransaction_outer_failure c r c' new (rc : status) :
  txn_depth_ c = 0 ->
  beginTransaction true c = (r, c') ->
  issued_since c c' new ->
  In ("BEGIN IMMEDIATE", rc) new -> ok rc = false ->
  r = Returns rc /\ new = [("BEGIN IMMEDIATE", rc)] /\ txn_depth_ c' = 0.
Proof.
  intros Hd Hrun Hnew Hin Hrc.
  assert (Hr : 0 <= txn_depth_ c < INT_MAX)
    by (rewrite Hd; unfold INT_MAX; lia).
  destruct (beginTransaction_trace true c r c' Hr Hrun)
    as (new' & Hnew' & _ & Htrace & _).
  rewrite (issued_since_unique _ _ _ _ Hnew Hnew') in *. clear Hnew new.
  rewrite Hd in Htrace. simpl in Htrace.
  inversion Htrace; subst; distinct_sql; auto.
Qed.

(** X11: a [beginTransaction(false)] issues at most one statement, its
    [SAVEPOINT], and never [BEGIN IMMEDIATE] or [ROLLBACK]: either an
    exception leaves it before anything is issued, or it returns the status
    of the savepoint, with the depth one higher exactly when that status
    is ok. *)
Theorem beginTransaction_deferred c r c' new :
  0 <= txn_depth_ c < INT_MAX ->
  beginTransaction false c = (r, c') ->
  issued_since c c' new ->
  (new = [] /\ txn_depth_ c' = txn_depth_ c /\ exists e, r = Throws e)
  \/ (exists rc,
        new = [(savepoint_sql (txn_depth_ c + 1), rc)] /\ r = Returns rc
        /\ txn_depth_ c' = txn_depth_ c + (if ok rc then 1 else 0)).
Proof.
  intros Hd Hrun Hnew.
  destruct (beginTransaction_trace false c r c' Hd Hrun)
    as (new' & Hnew' & _ & Htrace & _).
  rewrite (issued_since_unique _ _ _ _ Hnew Hnew') in *. clear Hnew new.
  inversion Htrace; subst; try discriminate;
    unfold outer_begin; rewrite andb_false_r; simpl.
  - left. eauto.
  - right. eexists. split; [reflexivity|]. split; [reflexivity|].
    match goal with Hf : ok _ = false |- _ => rewrite Hf end. lia.
  - right. exists status_ok. auto.
Qed.

(** X12: the [endTransaction] that follows a successful
    [beginTransaction] works on the savepoint which that begin created:
    the begin ends with [SAVEPOINT <name>], and every statement of the end
    is [ROLLBACK TO SAVEPOINT <name>], [RELEASE SAVEPOINT <name>] or the
    final [COMMIT]/[ROLLBACK]; an end that returns ok has released
    [<name>]. *)
Theorem begin_end_same_savepoint (immediate commit : bool) c c1 r c2 new1 new2 :
  0 <= txn_depth_ c < INT_MAX ->
  beginTransaction immediate c = (Returns status_ok, c1) ->
  endTransaction commit c1 = (r, c2) ->
  issued_since c c1 new1 -> issued_since c1 c2 new2 ->
  exists name,
    last new1 = Some ("SAVEPOINT " +:+ name, status_ok)
    /\ (forall sql rc, In (sql, rc) new2 ->
          sql = "ROLLBACK TO SAVEPOINT " +:+ name
          \/ sql = "RELEASE SAVEPOINT " +:+ name
          \/ sql = final_sql commit)
    /\ (r = Returns status_ok -> In ("RELEASE SAVEPOINT " +:+ name, status_ok) new2).
Proof.
  intros Hd Hbegin Hend Hnew1 Hnew2.
  destruct (beginTransaction_trace immediate c _ c1 Hd Hbegin)
    as (new & Hnew & _ & Hbt & _).
  rewrite (issued_since_unique _ _ _ _ Hnew1 Hnew) in *. clear Hnew1 new1.
  assert (Hd1 : txn_depth_ c1 = txn_depth_ c + 1
                /\ last new = Some (savepoint_sql (txn_depth_ c + 1), status_ok)).
  { inversion Hbt; subst;
      try match goal with
          | Hok : ok status_ok = false |- _ => discriminate Hok
          end.
    split; [reflexivity|]. apply last_snoc. }
  destruct Hd1 as [Hd1 Hlast].
  assert (Hr : 1 <= txn_depth_ c1 <= INT_MAX) by lia.
  destruct (endTransaction_trace commit c1 r c2 Hr Hend)
    as (new' & Hnew' & _ & _ & Het).
  rewrite (issued_since_unique _ _ _ _ Hnew2 Hnew') in *. clear Hnew2 new2.
  rewrite Hd1 in Het.
  exists ("sp_" +:+ string_of_int (txn_depth_ c + 1)).
  split; [exact Hlast|]. split.
  - intros sql rc Hin.
    destruct commit; inversion Het; subst; distinct_sql; auto.
  - intros Hok.
    destruct commit; inversion Het; subst; try discriminate;
      unfold rollback_first, release_sql; simpl; auto;
      match goal with
      | Hf : ok ?x = false, Heq : Returns ?x = Returns status_ok |- _ =>
          inversion Heq; subst; discriminate Hf
      end.
Qed.
End Coordinator.

Lemma beginTransaction_nested_ignores_immediate_witness :
  beginTransaction true (begun []) = beginTransaction false (begun []).
Proof.
  apply (beginTransaction_nested_ignores_immediate (begun [])).
  vm_compute. discriminate.
Defined.

(** The database is locked by another connection: [BEGIN IMMEDIATE] answers
    busy. *)
Lemma beginTransaction_outer_failure_witness :
  let c := fresh_database [("BEGIN IMMEDIATE", status_busy)] in
  let run := beginTransaction true c in
  fst run = Returns status_busy
  /\ [("BEGIN IMMEDIATE", status_busy)] = [("BEGIN IMMEDIATE", status_busy)]
  /\ txn_depth_ (snd run) = 0.
Proof.
  intros c run.
  apply (beginTransaction_outer_failure c (fst run) (snd run)
           [("BEGIN IMMEDIATE", status_busy)] status_busy).
  - reflexivity.
  - apply surjective_pairing.
  - reflexivity.
  - simpl. auto.
  - reflexivity.
Defined.

Lemma beginTransaction_deferred_witness :
  let c := fresh_database [] in
  let run := beginTransaction false c in
  ([("SAVEPOINT sp_1", status_ok)] = [] /\ txn_depth_ (snd run) = txn_depth_ c
   /\ exists e, fst run = Throws e)
  \/ (exists rc,
        [("SAVEPOINT sp_1", status_ok)] = [(savepoint_sql (txn_depth_ c + 1), rc)]
        /\ fst run = Returns rc
        /\ txn_depth_ (snd run) = txn_depth_ c + (if ok rc then 1 else 0)).
Proof.
  intros c run.
  apply (beginTransaction_deferred c (fst run) (snd run) [("SAVEPOINT sp_1", status_ok)]).
  - vm_compute. split; [discriminate|reflexivity].
  - apply surjective_pairing.
  - reflexivity.
Defined.

Lemma begin_end_same_savepoint_witness :
  let c := fresh_database [] in
  let c1 := snd (beginTransaction true c) in
  let run := endTransaction true c1 in
  exists name,
    last [("BEGIN IMMEDIATE", status_ok); ("SAVEPOINT sp_1", status_ok)]
    = Some ("SAVEPOINT " +:+ name, status_ok)
    /\ (forall sql rc,
          In (sql, rc) [("RELEASE SAVEPOINT sp_1", status_ok); ("COMMIT", status_ok)] ->
          sql = "ROLLBACK TO SAVEPOINT " +:+ name
          \/ sql = "RELEASE SAVEPOINT " +:+ name
          \/ sql = final_sql true)
    /\ (fst run = Returns status_ok ->
        In ("RELEASE SAVEPOINT " +:+ name, status_ok)
           [("RELEASE SAVEPOINT sp_1", status_ok); ("COMMIT", status_ok)]).
Proof.
  intros c c1 run.
  apply (begin_end_same_savepoint true true c c1 (fst run) (snd run)
           [("BEGIN IMMEDIATE", status_ok); ("SAVEPOINT sp_1", status_ok)]
           [("RELEASE SAVEPOINT sp_1", status_ok); ("COMMIT", status_ok)]).
  - vm_compute. split; [discriminate|reflexivity].
  - vm_compute. reflexivity.
  - apply surjective_pairing.
  - vm_compute. reflexivity.
  - vm_compute. reflexivity.
Defined.

(** ** Opening and configuring *)

(** X13: [sqlite_version] splits the library's version number
    [major * 1000000 + minor * 1000 + patch] into the major number, the
    patch number, and as middle component the number divided by 1000,
    which is [major * 1000 + minor] and not the minor number. *)
Theorem sqlite_version_components (major minor patch : Z) :
  0 <= major -> 0 <= minor < 1000 -> 0 <= patch < 1000 ->
  sqlite_version (major * 1000000 + minor * 1000 + patch)
  = (major, major * 1000 + minor, patch).
Proof.
  intros HM Hm Hp. unfold sqlite_version.
  rewrite !Z.quot_div_nonneg, Z.rem_mod_nonneg by lia.
  repeat f_equal.
  - symmetry. apply (Z.div_unique _ _ _ (minor * 1000 + patch)); lia.
  - symmetry. apply (Z.div_unique _ _ _ patch); lia.
  - symmetry. apply (Z.mod_unique _ _ (major * 1000 + minor)); lia.
Qed.

(** SQLite 3.43.1 has the version number 3043001. *)
Lemma sqlite_version_components_witness :
  sqlite_version (3 * 1000000 + 43 * 1000 + 1) = (3, 3 * 1000 + 43, 1).
Proof. apply sqlite_version_components; lia. Defined.

(** X14: the flags that [connect] opens with keep every flag that was
    asked for; an in-memory database always gets an access mode
    (read-write, unless one was given); flags that have an access mode, or
    are not in-memory, are passed as they are; and flags that went through
    once do not change again. *)
Theorem connect_flags_access_mode (flags : Z) :
  Z.land (connect_flags flags) flags = flags
  /\ (Z.land flags open_flags_memory <> 0 ->
      Z.land (connect_flags flags) (Z.lor open_flags_readwrite open_flags_readonly) <> 0)
  /\ (Z.land flags open_flags_memory = 0
      \/ Z.land flags (Z.lor open_flags_readwrite open_flags_readonly) <> 0 ->
      connect_flags flags = flags)
  /\ connect_flags (connect_flags flags) = connect_flags flags.
Proof.
  unfold connect_flags.
  destruct (Z.land flags open_flags_memory =? 0) eqn:Hmem; simpl.
  - apply Z.eqb_eq in Hmem. rewrite Hmem. simpl.
    repeat split; auto using Z.land_diag; congruence.
  - apply Z.eqb_neq in Hmem.
    destruct (Z.land flags (Z.lor open_flags_readwrite open_flags_readonly) =? 0)
      eqn:Hacc; simpl.
    + apply Z.eqb_eq in Hacc.
      assert (Hset : Z.land (Z.lor flags open_flags_readwrite)
                       (Z.lor open_flags_readwrite open_flags_readonly) <> 0).
      { rewrite Z.land_lor_distr_l, Hacc. discriminate. }
      repeat split.
      * apply Z.bits_inj'. intros n _.
        rewrite Z.land_spec, Z.lor_spec.
        destruct (Z.testbit flags n); simpl; auto using andb_false_r.
      * intros _. exact Hset.
      * intros [?|?]; congruence.
      * apply Z.eqb_neq in Hset. rewrite Hset, andb_false_r. reflexivity.
    + apply Z.eqb_neq in Hacc.
      repeat split; auto using Z.land_diag.
      apply Z.eqb_neq in Hmem, Hacc. now rewrite Hmem, Hacc.
Qed.

(** X15: without the [uri] flag, the filename that [connect] hands to the
    engine starts with ":" only when it is ":memory:" itself (any other
    such name gets "./" in front); a name that does not start with ":" and
    the name ":memory:" are passed unchanged. *)
Theorem connect_filename_not_special (dbname : string) (flags : Z) :
  (Z.land flags open_flags_uri = 0 ->
   connect_filename dbname flags <> ":memory:" ->
   String.prefix ":" (connect_filename dbname flags) = false)
  /\ (String.prefix ":" dbname = false -> connect_filename dbname flags = dbname)
  /\ connect_filename ":memory:" flags = ":memory:".
Proof.
  unfold connect_filename. repeat split.
  - intros Huri. rewrite Huri. simpl. rewrite andb_true_r.
    destruct (String.prefix ":" dbname) eqn:Hp; simpl.
    + destruct (String.eqb dbname ":memory:") eqn:Hm; simpl.
      * apply String.eqb_eq in Hm. congruence.
      * reflexivity.
    + intros _. exact Hp.
  - intros ->. reflexivity.
Qed.

(** An in-memory database asked for with the [memory] flag alone. *)
Lemma connect_flags_access_mode_witness :
  Z.land (connect_flags open_flags_memory)
    (Z.lor open_flags_readwrite open_flags_readonly) <> 0.
Proof.
  apply (proj1 (proj2 (connect_flags_access_mode open_flags_memory))).
  vm_compute. discriminate.
Defined.

(** A file called ":notes" in the current directory. *)
Lemma connect_filename_not_special_witness :
  String.prefix ":" (connect_filename ":notes" open_flags_readwrite) = false.
Proof.
  apply (proj1 (connect_filename_not_special ":notes" open_flags_readwrite)).
  - reflexivity.
  - vm_compute. discriminate.
Defined.

Section Configuring.
Context {E : Type} `{Engine E} `{Library E}.
Implicit Types c : database E.

Lemma close_sole_owner (immediately : bool) c :
  sole_owner c -> close immediately c = (Returns status_ok, closed c).
Proof.
  unfold sole_owner, closed. intros Hsole. rewrite close_outcome. simpl.
  destruct (db_ c) as [n|] eqn:Hdb.
  - destruct (1 <? n)%nat eqn:Hn; [apply Nat.ltb_lt in Hn; lia|reflexivity].
  - f_equal. destruct c; simpl in *; subst; reflexivity.
Qed.

Lemma connect_sole_owner (dbname : string) (flags : Z) (vfs : option string) c :
  sole_owner c ->
  connect dbname flags vfs c =
  (let rc := fst (connect_request dbname flags vfs) in
   let h := snd (connect_request dbname flags vfs) in
   if ok rc then (Returns rc, own_handle h (closed c))
   else if exceptions_ c
        then (Throws (raise_msg rc (match h with
                                    | Some e => sqlite3_errmsg e
                                    | None => "can't open database"
                                    end)),
              closed c)
        else check rc (closed c)).
Proof.
  intros Hsole. unfold connect, connect_request.
  rewrite fn_bind. unfold call at 1. rewrite close_sole_owner by assumption.
  destruct (sqlite3_open_v2 _ _ vfs) as [rc h]. simpl.
  unfold fn, bind, modify, gets, when, throw, call, return_, skip, ret.
  destruct (ok rc) eqn:Hok; simpl.
  - rewrite check_outcome. rewrite Hok. reflexivity.
  - destruct (exceptions_ c); simpl; [reflexivity|].
    destruct (check rc (closed c)) as [[rc'|e|] c1]; reflexivity.
Qed.

(** X16: when nothing else holds the old handle and the engine opens the
    file, [connect] returns ok and the connection is open on the new
    handle, which it alone owns; the statement caches of the previous
    connection are gone, and the transaction depth is the one the object
    had before. *)
Theorem connect_opens (dbname : string) (flags : Z) (vfs : option string) c (e : E) :
  sole_owner c ->
  connect_request dbname flags vfs = (status_ok, Some e) ->
  connect dbname flags vfs c
  = (Returns status_ok, own_handle (Some e) (closed c))
  /\ is_open (snd (connect dbname flags vfs c)) = true
  /\ db_ (snd (connect dbname flags vfs c)) = Some 1%nat
  /\ sqlite3_ (snd (connect dbname flags vfs c)) = e
  /\ commands_ (snd (connect dbname flags vfs c)) = None
  /\ queries_ (snd (connect dbname flags vfs c)) = None
  /\ txn_depth_ (snd (connect dbname flags vfs c)) = txn_depth_ c.
Proof.
  intros Hsole Hreq. rewrite connect_sole_owner by assumption.
  rewrite Hreq. cbn [fst snd]. change (ok status_ok) with true. cbv iota.
  cbn [fst snd]. repeat split.
Qed.

Lemma close_shared (immediately : bool) c :
  shared c = true ->
  close immediately c
  = (if exceptions_ c
     then Throws (database_error
                    (match lock c with Some e => sqlite3_errmsg e | None => "" end)
                    status_busy)
     else Returns status_busy,
     set_queries_ None (set_commands_ None c)).
Proof.
  unfold shared. intros Hshared. rewrite close_outcome. cbv zeta.
  destruct (db_ c) as [n|]; [|discriminate]. rewrite Hshared.
  rewrite check_outcome. cbn [fst]. simpl.
  destruct (exceptions_ c); reflexivity.
Qed.

Lemma connect_shared (dbname : string) (flags : Z) (vfs : option string) c :
  shared c = true ->
  connect dbname flags vfs c =
  (let c0 := set_queries_ None (set_commands_ None c) in
   let rc := fst (connect_request dbname flags vfs) in
   let h := snd (connect_request dbname flags vfs) in
   if exceptions_ c
   then (Throws (database_error
                   (match lock c with Some e => sqlite3_errmsg e | None => "" end)
                   status_busy),
         c0)
   else if ok rc then (Returns rc, own_handle h c0)
        else check rc c0).
Proof.
  intros Hshared. unfold connect, connect_request.
  rewrite fn_bind. unfold call at 1. rewrite close_shared by assumption.
  destruct (exceptions_ c) eqn:Hex; [reflexivity|].
  destruct (sqlite3_open_v2 _ _ vfs) as [rc h]. cbv zeta. cbn [fst snd].
  unfold fn, bind, modify, gets, when, throw, call, return_, skip, ret.
  destruct (ok rc) eqn:Hok.
  - rewrite check_outcome. rewrite Hok. reflexivity.
  - cbn [exceptions_ set_queries_ set_commands_]. rewrite Hex.
    destruct (check rc _) as [[rc'|e|] c1]; reflexivity.
Qed.

Lemma shared_sole_owner c : shared c = false -> sole_owner c.
Proof.
  unfold shared, sole_owner. destruct (db_ c) as [n|]; [|trivial].
  intros Hn. apply Nat.ltb_ge in Hn. exact Hn.
Qed.

(** X17: when the engine cannot open the file, [connect] takes no handle:
    the object keeps the engine and the [weak_db_] it had, without its
    statement caches.  An object that was closed, or the sole owner of its
    handle, is closed afterwards: with exceptions enabled the call throws
    the exception of the status, with the message of the handle the engine
    returned or "can't open database" when it returned none, and with
    exceptions disabled it returns the status.  An object whose handle is
    also held elsewhere stays open on that handle: with exceptions enabled
    the [close] in front throws [database_error] for [busy], and with
    exceptions disabled the [busy] is dropped and the status of the open
    is returned.  With exceptions disabled [misuse] is raised all the
    same, with the message of the handle that [weak_db_] observes. *)
Theorem connect_failure (dbname : string) (flags : Z) (vfs : option string) c
    (rc : status) (h : option E) :
  connect_request dbname flags vfs = (rc, h) -> ok rc = false ->
  commands_ (snd (connect dbname flags vfs c)) = None
  /\ queries_ (snd (connect dbname flags vfs c)) = None
  /\ sqlite3_ (snd (connect dbname flags vfs c)) = sqlite3_ c
  /\ weak_db_ (snd (connect dbname flags vfs c)) = weak_db_ c
  /\ (if shared c
      then db_ (snd (connect dbname flags vfs c)) = db_ c
           /\ fst (connect dbname flags vfs c)
              = (if exceptions_ c
                 then Throws (database_error
                                (match lock c with
                                 | Some e => sqlite3_errmsg e
                                 | None => ""
                                 end)
                                status_busy)
                 else if rc =? status_misuse
                      then Throws (invalid_argument
                                     (match lock c with
                                      | Some e => sqlite3_errmsg e
                                      | None => ""
                                      end))
                      else Returns rc)
      else db_ (snd (connect dbname flags vfs c)) = None
           /\ fst (connect dbname flags vfs c)
              = (if exceptions_ c
                 then Throws (raise_msg rc (match h with
                                            | Some e => sqlite3_errmsg e
                                            | None => "can't open database"
                                            end))
                 else if rc =? status_misuse
                      then Throws (invalid_argument
                                     (match weak_db_ c with
                                      | weak_other e => sqlite3_errmsg e
                                      | _ => ""
                                      end))
                      else Returns rc)).
Proof.
  intros Hreq Hok.
  destruct (shared c) eqn:Hshared.
  - rewrite connect_shared by assumption.
    rewrite Hreq. cbv zeta. cbn [fst snd]. rewrite Hok.
    destruct (exceptions_ c) eqn:Hex; [repeat split|].
    rewrite check_outcome. simpl. rewrite Hok, Hex. simpl.
    change (lock (set_queries_ None (set_commands_ None c))) with (lock c).
    destruct (rc =? status_misuse) eqn:Hm; simpl.
    + apply Z.eqb_eq in Hm. subst rc. simpl. repeat split.
    + repeat split.
  - rewrite connect_sole_owner by (now apply shared_sole_owner).
    rewrite Hreq. simpl. rewrite Hok.
    destruct (exceptions_ c) eqn:Hex; simpl; [repeat split|].
    rewrite check_outcome. simpl. rewrite Hok, Hex. simpl.
    unfold lock, is_open. simpl.
    destruct (rc =? status_misuse) eqn:Hm; simpl.
    + apply Z.eqb_eq in Hm. subst rc. simpl.
      repeat split. destruct (weak_db_ c); reflexivity.
    + repeat split.
Qed.

Lemma call_check {R} (rc : status) c (k : status -> body (St := database E) R R) :
  fn (rc' <- call (check rc) ;; k rc')%body c =
  match check rc c with
  | (Returns rc', c1) => fn (k rc') c1
  | (Throws e, c1) => (Throws e, c1)
  | (Terminates, c1) => (Terminates, c1)
  end.
Proof.
  rewrite fn_bind. unfold call. destruct (check rc c) as [[rc'|e|] c1]; reflexivity.
Qed.

Lemma checked_outcome (rc : status) c :
  fn (rc' <- call (check rc) ;; return_ rc')%body c = check rc c.
Proof.
  rewrite call_check. rewrite check_outcome.
  match goal with
  | |- context [if ?b then Throws ?x else _] => destruct b; reflexivity
  end.
Qed.

Lemma call_check_handle {R} (k : body (St := database E) R R) c :
  fn (call check_handle ;; k)%body c =
  if is_open c then fn k c else (Throws (logic_error "database is not open"), c).
Proof.
  unfold check_handle, fn, call, bind, when, get, return_, throw, skip, ret.
  destruct (is_open c); reflexivity.
Qed.

Lemma enable_foreign_keys_outcome (enable : bool) c :
  is_open c = true ->
  enable_foreign_keys enable c
  = check (fst (sqlite3_db_config (sqlite3_ c) SQLITE_DBCONFIG_ENABLE_FKEY
                  (if enable then 1 else 0)))
      (set_sqlite3_ (snd (sqlite3_db_config (sqlite3_ c) SQLITE_DBCONFIG_ENABLE_FKEY
                            (if enable then 1 else 0))) c).
Proof.
  intros Hopen. unfold enable_foreign_keys.
  rewrite call_check_handle, Hopen.
  rewrite fn_bind. unfold get at 1.
  destruct (sqlite3_db_config _ _ _) as [rc e]. simpl.
  rewrite fn_bind. unfold modify at 1.
  apply checked_outcome.
Qed.

Lemma set_busy_timeout_outcome (ms : Z) c :
  is_open c = true ->
  set_busy_timeout ms c
  = check (fst (sqlite3_busy_timeout (sqlite3_ c) ms))
      (set_sqlite3_ (snd (sqlite3_busy_timeout (sqlite3_ c) ms)) c).
Proof.
  intros Hopen. unfold set_busy_timeout.
  rewrite call_check_handle, Hopen.
  rewrite fn_bind. unfold get at 1.
  destruct (sqlite3_busy_timeout _ _) as [rc e]. simpl.
  rewrite fn_bind. unfold modify at 1.
  apply checked_outcome.
Qed.

Lemma writeable_outcome c :
  writeable c
  = (if is_open c then Returns (sqlite3_db_readonly (sqlite3_ c) "main" =? 0)
     else Terminates, c).
Proof.
  unfold writeable, noexcept, check_handle, fn, call, bind, when, get, return_,
    throw, skip, ret.
  destruct (is_open c); reflexivity.
Qed.

Lemma in_transaction_outcome c :
  in_transaction c
  = (if is_open c then Returns (negb (sqlite3_get_autocommit (sqlite3_ c)))
     else Terminates, c).
Proof.
  unfold in_transaction, noexcept, check_handle, fn, call, bind, when, get, return_,
    throw, skip, ret.
  destruct (is_open c); reflexivity.
Qed.

Lemma enable_foreign_keys_closed (enable : bool) c :
  is_open c = false ->
  enable_foreign_keys enable c = (Throws (logic_error "database is not open"), c).
Proof.
  intros Hclosed.
  unfold enable_foreign_keys, check_handle, fn, call, bind, when, get, throw.
  rewrite Hclosed. reflexivity.
Qed.

Lemma executef_outcome (sql : string) (args : list printf_arg) c :
  executef sql args c = database_execute (sqlite3_vmprintf sql args) c.
Proof.
  unfold executef. rewrite fn_bind. unfold call.
  destruct (database_execute _ c) as [[rc|e|] c1]; reflexivity.
Qed.

(** X18: on a closed connection the [noexcept] members that need the
    handle end the process ([std::terminate]) instead of throwing:
    [in_transaction] and [writeable], and with them [optimize], which asks
    [writeable] first, and a [beginTransaction(true)] at depth 0, which
    asks [in_transaction] first.  [setup] throws "database is not open".
    None of them changes the connection. *)
Theorem closed_connection_terminates c :
  is_open c = false ->
  in_transaction c = (Terminates, c)
  /\ writeable c = (Terminates, c)
  /\ optimize c = (Terminates, c)
  /\ (txn_depth_ c = 0 -> beginTransaction true c = (Terminates, c))
  /\ setup c = (Throws (logic_error "database is not open"), c).
Proof.
  intros Hclosed.
  split; [rewrite in_transaction_outcome, Hclosed; reflexivity|].
  split; [rewrite writeable_outcome, Hclosed; reflexivity|].
  split; [|split].
  - unfold optimize. rewrite fn_bind. unfold call at 1.
    rewrite writeable_outcome, Hclosed. reflexivity.
  - intros Hd. unfold beginTransaction.
    rewrite fn_bind. unfold gets at 1. rewrite fn_bind, Hd. simpl.
    unfold when at 1. unfold bind at 1 2. unfold call at 1.
    rewrite in_transaction_outcome, Hclosed. reflexivity.
  - unfold setup. rewrite fn_bind. unfold call at 1.
    rewrite enable_foreign_keys_closed by assumption. reflexivity.
Qed.

(** X19: when enabling the foreign keys fails, [setup] stops at once and
    ends as [check] does for that status: the status is returned when
    exceptions are disabled (and when it is [row] or [done]), raised when
    they are enabled, and [misuse] is raised in both cases.  The busy
    timeout is not set and no [PRAGMA] is executed: the connection is as
    the failed call left it. *)
Theorem setup_stops_at_first_failure c (rc : status) (e : E) :
  is_open c = true ->
  sqlite3_db_config (sqlite3_ c) SQLITE_DBCONFIG_ENABLE_FKEY 1 = (rc, e) ->
  ok rc = false ->
  setup c = check rc (set_sqlite3_ e c)
  /\ snd (setup c) = set_sqlite3_ e c
  /\ fst (setup c)
     = (if (exceptions_ c || (rc =? status_misuse))
           && negb (rc =? status_done) && negb (rc =? status_row)
        then Throws (raise_msg rc (match lock (set_sqlite3_ e c) with
                                   | Some e' => sqlite3_errmsg e'
                                   | None => ""
                                   end))
        else Returns rc).
Proof.
  intros Hopen Hcfg Hok.
  assert (Hrun : setup c = check rc (set_sqlite3_ e c)).
  { unfold setup. rewrite fn_bind. unfold call at 1.
    rewrite enable_foreign_keys_outcome by assumption.
    rewrite Hcfg. cbn [fst snd]. rewrite check_outcome. cbn [fst snd].
    match goal with
    | |- context [if ?b then Throws ?x else _] => destruct b; [reflexivity|]
    end.
    rewrite fn_bind. rewrite Hok. reflexivity. }
  rewrite Hrun, check_outcome. cbn [fst snd]. rewrite Hok.
  repeat split.
Qed.

(** X20: once the foreign keys are enabled and the busy timeout of 5000 ms
    is set, [setup] ends as the execution of its three [PRAGMA]s does when
    the database is writeable, and returns ok without executing anything
    when it is read-only. *)
Theorem setup_configured c (e1 e2 : E) :
  is_open c = true ->
  sqlite3_db_config (sqlite3_ c) SQLITE_DBCONFIG_ENABLE_FKEY 1 = (status_ok, e1) ->
  sqlite3_busy_timeout e1 5000 = (status_ok, e2) ->
  setup c =
  (if sqlite3_db_readonly e2 "main" =? 0
   then database_execute setup_sql (set_sqlite3_ e2 c)
   else (Returns status_ok, set_sqlite3_ e2 c)).
Proof.
  intros Hopen Hcfg Hbusy.
  unfold setup. rewrite fn_bind. unfold call at 1.
  rewrite enable_foreign_keys_outcome by assumption.
  rewrite Hcfg. cbn [fst snd]. rewrite check_outcome. simpl.
  rewrite fn_bind. simpl.
  rewrite fn_bind. unfold call at 1.
  rewrite set_busy_timeout_outcome by assumption. cbn [sqlite3_ set_sqlite3_].
  rewrite Hbusy. cbn [fst snd]. rewrite check_outcome. simpl.
  rewrite fn_bind. unfold call at 1.
  change (set_sqlite3_ e2 (set_sqlite3_ e1 c)) with (set_sqlite3_ e2 c).
  rewrite writeable_outcome.
  change (is_open (set_sqlite3_ e2 c)) with (is_open c). rewrite Hopen.
  change (sqlite3_ (set_sqlite3_ e2 c)) with e2.
  destruct (sqlite3_db_readonly e2 "main" =? 0).
  - rewrite fn_bind. unfold call at 1.
    destruct (database_execute setup_sql _) as [[rc|ex|] c1]; reflexivity.
  - reflexivity.
Qed.

(** X21: on a read-only database [optimize] returns ok and does nothing:
    no [PRAGMA] is executed. *)
Theorem optimize_read_only c :
  is_open c = true -> sqlite3_db_readonly (sqlite3_ c) "main" <> 0 ->
  optimize c = (Returns status_ok, c).
Proof.
  intros Hopen Hro. unfold optimize.
  rewrite fn_bind. unfold call at 1. rewrite writeable_outcome, Hopen.
  apply Z.eqb_neq in Hro. rewrite Hro. reflexivity.
Qed.

(** X22: on a writeable database [optimize] executes the [analysis_limit]
    pragma, and the [optimize] pragma after it exactly when the first one
    returned ok, and nothing else; when it returns, it returns the status
    of the last pragma it executed. *)
Theorem optimize_statements c r c' :
  is_open c = true -> sqlite3_db_readonly (sqlite3_ c) "main" = 0 ->
  optimize c = (r, c') ->
  exists rc1 rc2,
    issued c' = issued c ++ (analysis_limit_sql, rc1)
                  :: (if ok rc1 then [(optimize_sql, rc2)] else [])
    /\ (r = Returns (if ok rc1 then rc2 else rc1) \/ exists e, r = Throws e).
Proof.
  intros Hopen Hrw Hrun. unfold optimize in Hrun.
  rewrite fn_bind in Hrun. unfold call at 1 in Hrun.
  rewrite writeable_outcome, Hopen, Hrw in Hrun.
  change (negb (0 =? 0)) with false in Hrun.
  rewrite fn_bind in Hrun. unfold when at 1, skip, ret in Hrun.
  rewrite fn_bind in Hrun. unfold call at 1, pragma_int64 in Hrun.
  rewrite executef_outcome in Hrun.
  fold analysis_limit_sql in Hrun.
  destruct (database_execute analysis_limit_sql c) as [r1 c1] eqn:Hfirst.
  pose proof (database_execute_issued _ _ _ _ Hopen Hfirst)
    as (Hopen1 & rc1 & Hissued1 & [->|(e & -> & Hfail)]).
  - rewrite fn_bind in Hrun.
    destruct (ok rc1) eqn:Hok.
    + unfold call at 1 in Hrun. rewrite executef_outcome in Hrun.
      fold optimize_sql in Hrun.
      destruct (database_execute optimize_sql c1) as [r2 c2] eqn:Hsecond.
      pose proof (database_execute_issued _ _ _ _ Hopen1 Hsecond)
        as (_ & rc2 & Hissued2 & [->|(e & -> & _)]).
      * inversion Hrun; subst; clear Hrun. exists rc1, rc2. rewrite Hok.
        split; [rewrite Hissued2, Hissued1, <- app_assoc; reflexivity|auto].
      * inversion Hrun; subst; clear Hrun. exists rc1, rc2. rewrite Hok.
        split; [rewrite Hissued2, Hissued1, <- app_assoc; reflexivity|eauto].
    + inversion Hrun; subst; clear Hrun.
      exists rc1, rc1. rewrite Hok. auto.
  - inversion Hrun; subst; clear Hrun.
    exists rc1, rc1. rewrite Hfail. eauto.
Qed.
End Configuring.

(** The default flags ([readwrite | create]) on a file that can be
    opened. *)
Lemma connect_opens_witness :
  let c := file_database true false [] in
  let e := {| connection := mini_idle []; read_only := false;
              message := "not an error" |} in
  connect "test.db" 6 None c = (Returns status_ok, own_handle (Some e) (closed c))
  /\ is_open (snd (connect "test.db" 6 None c)) = true
  /\ db_ (snd (connect "test.db" 6 None c)) = Some 1%nat
  /\ sqlite3_ (snd (connect "test.db" 6 None c)) = e
  /\ commands_ (snd (connect "test.db" 6 None c)) = None
  /\ queries_ (snd (connect "test.db" 6 None c)) = None
  /\ txn_depth_ (snd (connect "test.db" 6 None c)) = txn_depth_ c.
Proof.
  intros c e. apply (connect_opens "test.db" 6 None c e).
  - vm_compute. lia.
  - reflexivity.
Defined.

(** The path of the test "SQNice invalid path", with exceptions disabled,
    on an object whose handle a running query also holds: the status is
    [cantopen], and the object is still open on the handle it had. *)
Lemma connect_failure_witness :
  let c := set_db_ (Some 2%nat) (file_database false false []) in
  let run := connect "/test/invalid/path" 6 None c in
  commands_ (snd run) = None /\ queries_ (snd run) = None
  /\ sqlite3_ (snd run) = sqlite3_ c /\ weak_db_ (snd run) = weak_db_ c
  /\ db_ (snd run) = Some 2%nat
  /\ fst run = Returns status_cantopen.
Proof.
  intros c run.
  exact (connect_failure "/test/invalid/path" 6 None c status_cantopen
           (Some {| connection := mini_idle []; read_only := true;
                    message := "unable to open database file" |})
           eq_refl eq_refl).
Defined.

(** The same on a connection that nothing else holds, as in the test: the
    object is closed afterwards. *)
Example connect_invalid_path :
  let run := connect "/test/invalid/path" 6 None (file_database false false []) in
  fst run = Returns status_cantopen /\ is_open (snd run) = false.
Proof. split; reflexivity. Qed.

Lemma closed_connection_terminates_witness :
  let c := closed (file_database true false []) in
  in_transaction c = (Terminates, c)
  /\ writeable c = (Terminates, c)
  /\ optimize c = (Terminates, c)
  /\ (txn_depth_ c = 0 -> beginTransaction true c = (Terminates, c))
  /\ setup c = (Throws (logic_error "database is not open"), c).
Proof.
  intros c. apply (closed_connection_terminates c). reflexivity.
Defined.

(** The engine refuses the setting with [misuse]: with exceptions disabled
    [setup] still throws. *)
Lemma setup_stops_at_first_failure_witness :
  let c := file_database false false [("sqlite3_db_config", status_misuse)] in
  let e := sqlite3_ (file_database false false []) in
  setup c = check status_misuse (set_sqlite3_ e c)
  /\ snd (setup c) = set_sqlite3_ e c
  /\ fst (setup c) = Throws (invalid_argument "not an error").
Proof.
  intros c e.
  exact (setup_stops_at_first_failure c status_misuse e eq_refl eq_refl eq_refl).
Defined.

Example setup_returns_busy :
  let c := file_database false false [("sqlite3_db_config", status_busy)] in
  setup c = (Returns status_busy, set_sqlite3_ (sqlite3_ (file_database false false [])) c).
Proof. reflexivity. Qed.

Lemma setup_configured_witness :
  let c := file_database true false [] in
  setup c =
  (if sqlite3_db_readonly (sqlite3_ c) "main" =? 0
   then database_execute setup_sql (set_sqlite3_ (sqlite3_ c) c)
   else (Returns status_ok, set_sqlite3_ (sqlite3_ c) c)).
Proof.
  intros c. apply (setup_configured c (sqlite3_ c) (sqlite3_ c)); reflexivity.
Defined.

Lemma optimize_read_only_witness :
  let c := file_database true true [] in
  optimize c = (Returns status_ok, c).
Proof.
  intros c. apply (optimize_read_only c).
  - reflexivity.
  - vm_compute. discriminate.
Defined.

Lemma optimize_statements_witness :
  let c := file_database true false [] in
  exists rc1 rc2,
    issued (snd (optimize c))
    = issued c ++ (analysis_limit_sql, rc1)
        :: (if ok rc1 then [(optimize_sql, rc2)] else [])
    /\ (fst (optimize c) = Returns (if ok rc1 then rc2 else rc1)
        \/ exists e, fst (optimize c) = Throws e).
Proof.
  intros c. apply (optimize_statements c (fst (optimize c)) (snd (optimize c))).
  - reflexivity.
  - reflexivity.
  - apply surjective_pairing.
Defined.

(** The statements of [optimize] on the example engine. *)
Example optimize_issues :
  issued (snd (optimize (file_database true false [])))
  = [("PRAGMA analysis_limit(400)", status_ok); ("PRAGMA optimize(65534)", status_ok)].
Proof. reflexivity. Qed.

(** ** Moving a connection *)

Section Moving.
Context {E : Type} `{Engine E}.
Implicit Types c : database E.

(** X23: a connection made by the move constructor is open exactly when
    the source was, and the source is closed; whatever the depth of the
    source, the new object starts at depth 0 with no statement cache,
    while the source keeps its depth.  So the new object refuses an
    [endTransaction] as an underflow even when the source was inside a
    transaction. *)
Theorem database_move_resets_transaction (commit : bool) c :
  is_open (fst (database_move c)) = is_open c
  /\ is_open (snd (database_move c)) = false
  /\ txn_depth_ (fst (database_move c)) = 0
  /\ commands_ (fst (database_move c)) = None
  /\ queries_ (fst (database_move c)) = None
  /\ txn_depth_ (snd (database_move c)) = txn_depth_ c
  /\ endTransaction commit (fst (database_move c))
     = (Throws (logic_error "transaction underflow"), fst (database_move c)).
Proof.
  unfold database_move. cbn [fst snd].
  split; [reflexivity|]. split; [reflexivity|].
  split; [reflexivity|]. split; [reflexivity|]. split; [reflexivity|].
  split; [reflexivity|].
  apply endTransaction_refused. cbn [txn_depth_]. lia.
Qed.
End Moving.

(** A connection moved while inside a transaction. *)
Example database_move_inside_transaction :
  txn_depth_ (begun []) = 1
  /\ txn_depth_ (fst (database_move (begun []))) = 0
  /\ sqlite3_get_autocommit (sqlite3_ (fst (database_move (begun [])))) = false.
Proof. repeat split. Qed.

(** ** Backup *)

Section BackupProperties.
Context {E B : Type} `{Engine E} `{Backup E B}.

Lemma backup_loop_seen (fuel : nat) (handler : bool) (step_page : Z) :
  forall bkup seen,
    backup_loop fuel handler step_page bkup seen
    = (fst (fst (backup_loop fuel handler step_page bkup [])),
       snd (fst (backup_loop fuel handler step_page bkup [])),
       seen ++ snd (backup_loop fuel handler step_page bkup [])).
Proof.
  induction fuel as [|fuel IH]; intros bkup seen; cbn [backup_loop].
  - cbn [fst snd]. now rewrite app_nil_r.
  - destruct (sqlite3_backup_step bkup step_page) as [rc b1].
    destruct (again rc).
    + rewrite IH. rewrite (IH b1 (if handler then _ else _)). cbn [fst snd].
      destruct handler; [now rewrite <- app_assoc|reflexivity].
    + cbn [fst snd]. destruct handler; [reflexivity|now rewrite app_nil_r].
Qed.

(** X24: the loop of [backup] ends at the first step that answers a
    status other than ok, busy or locked, however many steps answered one
    of those before: when step [n] is the first such step, the loop run
    for more than [n] steps ends with the status of step [n], in the state
    after it, and the handler (if there is one) has been told about each of
    the steps [0 .. n] once, in order; run for [n] steps or fewer it is
    still going. *)
Theorem backup_loop_ends_at_first_final_status (n : nat) (handler : bool)
    (step_page : Z) (bkup : B) (fuel : nat) :
  (forall i, (i < n)%nat -> again (fst (nth_step i step_page bkup)) = true) ->
  again (fst (nth_step n step_page bkup)) = false ->
  ((n < fuel)%nat ->
   backup_loop fuel handler step_page bkup []
   = (Some (fst (nth_step n step_page bkup)), snd (nth_step n step_page bkup),
      if handler then reports (S n) step_page bkup else []))
  /\ ((fuel <= n)%nat ->
      fst (fst (backup_loop fuel handler step_page bkup [])) = None).
Proof.
  revert bkup fuel.
  induction n as [|n IH]; intros bkup fuel Hbefore Hlast.
  - split.
    + intros Hfuel. destruct fuel as [|fuel]; [lia|].
      simpl in *. destruct (sqlite3_backup_step bkup step_page) as [rc b1].
      simpl in *. rewrite Hlast. destruct handler; reflexivity.
    + intros Hfuel. assert (fuel = O) by lia. subst. reflexivity.
  - assert (Hfirst : again (fst (sqlite3_backup_step bkup step_page)) = true)
      by (apply (Hbefore O); lia).
    assert (Hbefore' : forall i, (i < n)%nat ->
              again (fst (nth_step i step_page
                            (snd (sqlite3_backup_step bkup step_page)))) = true)
      by (intros i Hi; apply (Hbefore (S i)); lia).
    split.
    + intros Hfuel. destruct fuel as [|fuel]; [lia|].
      destruct (IH (snd (sqlite3_backup_step bkup step_page)) fuel Hbefore' Hlast)
        as [Hrun _].
      specialize (Hrun ltac:(lia)).
      cbn [backup_loop nth_step reports] in *.
      destruct (sqlite3_backup_step bkup step_page) as [rc b1].
      cbn [fst snd] in *. rewrite Hfirst.
      rewrite backup_loop_seen, Hrun. cbn [fst snd].
      destruct handler; reflexivity.
    + intros Hfuel. destruct fuel as [|fuel]; [reflexivity|].
      destruct (IH (snd (sqlite3_backup_step bkup step_page)) fuel Hbefore' Hlast)
        as [_ Hrun].
      specialize (Hrun ltac:(lia)).
      cbn [backup_loop]. destruct (sqlite3_backup_step bkup step_page) as [rc b1].
      cbn [fst snd] in *. rewrite Hfirst.
      rewrite backup_loop_seen. cbn [fst snd]. exact Hrun.
Qed.

Lemma backup_loop_final (fuel : nat) (handler : bool) (step_page : Z) :
  forall bkup seen rc bkup' seen',
    backup_loop fuel handler step_page bkup seen = (Some rc, bkup', seen') ->
    again rc = false.
Proof.
  induction fuel as [|fuel IH]; intros bkup seen rc bkup' seen'; simpl;
    [discriminate|].
  destruct (sqlite3_backup_step bkup step_page) as [rc1 b1].
  destruct (again rc1) eqn:Hagain.
  - apply IH.
  - intros Hrun. inversion Hrun; subst. exact Hagain.
Qed.

(** X25: a backup that was started returns ok only when its last step
    answered [done] and [sqlite3_backup_finish] answered ok; the handler
    was told about the steps of that loop. *)
Theorem backup_ok_means_done (fuel : nat) (dbname destdbname : string)
    (destdb this : database E) (handler : bool) (step_page : Z) (bkup : B) (e : E) :
  sqlite3_backup_init (sqlite3_ destdb) destdbname (sqlite3_ this) dbname
  = (Some bkup, e) ->
  backup_result (backup fuel dbname destdb destdbname handler step_page this)
  = Some (Returns status_ok) ->
  exists bkup' seen,
    backup_loop fuel handler step_page bkup [] = (Some status_done, bkup', seen)
    /\ fst (fst (sqlite3_backup_finish bkup')) = status_ok
    /\ backup_progress (backup fuel dbname destdb destdbname handler step_page this)
       = seen.
Proof.
  intros Hinit. unfold backup.
  destruct (negb (is_open destdb) || negb (is_open this)); [discriminate|].
  rewrite Hinit.
  destruct (backup_loop fuel handler step_page bkup []) as [[[rc|] b1] seen] eqn:Hloop;
    [|discriminate].
  pose proof (backup_loop_final _ _ _ _ _ _ _ _ Hloop) as Hfinal.
  destruct (sqlite3_backup_finish b1) as [[end_rc dest] source] eqn:Hfinish.
  destruct (check _ _) as [r c1] eqn:Hcheck. cbn [backup_result backup_progress].
  intros Hok. inversion Hok; subst r. clear Hok.
  rewrite check_outcome in Hcheck.
  match type of Hcheck with
  | ((if ?b then _ else _), _) = _ => destruct b; [discriminate|]
  end.
  inversion Hcheck as [[Hrc Hc1]]. clear Hcheck.
  destruct (rc =? status_done) eqn:Hdone.
  - apply Z.eqb_eq in Hdone. subst rc. exists b1, seen.
    rewrite Hfinish. cbn [fst]. auto.
  - exfalso. rewrite Hrc in Hfinal. discriminate Hfinal.
Qed.

(** X26: a backup that cannot start takes no step and never calls the
    handler.  When either connection is closed it throws "database is not
    open" and changes nothing.  When the engine refuses to start it, the
    result is the extended error code of the destination: thrown, with the
    destination's message, when exceptions are enabled on the source
    connection, and returned as it is otherwise. *)
Theorem backup_cannot_start (fuel : nat) (dbname destdbname : string)
    (destdb this : database E) (handler : bool) (step_page : Z) :
  (is_open destdb = false \/ is_open this = false ->
   backup_result (backup fuel dbname destdb destdbname handler step_page this)
   = Some (Throws (logic_error "database is not open"))
   /\ backup_source (backup fuel dbname destdb destdbname handler step_page this) = this
   /\ backup_dest (backup fuel dbname destdb destdbname handler step_page this) = destdb
   /\ backup_progress (backup fuel dbname destdb destdbname handler step_page this) = [])
  /\ (is_open destdb = true -> is_open this = true ->
      forall e,
        sqlite3_backup_init (sqlite3_ destdb) destdbname (sqlite3_ this) dbname
        = (None, e) ->
        backup_result (backup fuel dbname destdb destdbname handler step_page this)
        = Some (if exceptions_ this
                then Throws (raise_msg (sqlite3_extended_errcode e) (sqlite3_errmsg e))
                else Returns (sqlite3_extended_errcode e))
        /\ backup_source (backup fuel dbname destdb destdbname handler step_page this)
           = this
        /\ backup_progress (backup fuel dbname destdb destdbname handler step_page this)
           = []).
Proof.
  unfold backup. split.
  - intros [Hd|Ht]; rewrite ?Hd, ?Ht; simpl; rewrite ?orb_true_r; auto.
  - intros Hd Ht e Hinit. rewrite Hd, Ht, Hinit. simpl. auto.
Qed.
End BackupProperties.

(** A backup into a schema that the destination does not have. *)
Lemma backup_cannot_start_witness :
  let db := file_database true false [] in
  backup_result (backup 10 "main" db "aux" true 5 db)
  = Some (if exceptions_ db
          then Throws (raise_msg status_error "unknown database")
          else Returns status_error)
  /\ backup_source (backup 10 "main" db "aux" true 5 db) = db
  /\ backup_progress (backup 10 "main" db "aux" true 5 db) = [].
Proof.
  intros db.
  exact (proj2 (backup_cannot_start 10 "main" "aux" db db true 5) eq_refl eq_refl
           {| connection := mini_idle []; read_only := false;
              message := "unknown database" |} eq_refl).
Defined.

(** The source is busy once, then 12 pages are copied 5 at a time: the
    fourth step is the last. *)
Lemma backup_loop_ends_at_first_final_status_witness :
  let bkup := starting_backup [status_busy] in
  ((3 < 10)%nat ->
   backup_loop 10 true 5 bkup []
   = (Some (fst (nth_step 3 5 bkup)), snd (nth_step 3 5 bkup),
      if true then reports 4 5 bkup else []))
  /\ ((10 <= 3)%nat -> fst (fst (backup_loop 10 true 5 bkup [])) = None).
Proof.
  intros bkup.
  apply (backup_loop_ends_at_first_final_status 3 true 5 bkup 10).
  - intros i Hi. destruct i as [|[|[|i]]]; [reflexivity|reflexivity|reflexivity|lia].
  - reflexivity.
Defined.

(** The test "SQNice backup", with its handler. *)
Example backup_progress_reports :
  backup_progress (backup_main 10 (file_database true false []) true
                     (file_database true false []))
  = [(7, 12, status_ok); (2, 12, status_ok); (0, 12, status_done)].
Proof. reflexivity. Qed.

Lemma backup_ok_means_done_witness :
  let db := file_database true false [] in
  exists bkup' seen,
    backup_loop 10 true 5 (starting_backup []) [] = (Some status_done, bkup', seen)
    /\ fst (fst (sqlite3_backup_finish bkup')) = status_ok
    /\ backup_progress (backup 10 "main" db "main" true 5 db) = seen.
Proof.
  intros db.
  apply (backup_ok_means_done 10 "main" "main" db db true 5 (starting_backup [])
           (sqlite3_ db)).
  - reflexivity.
  - reflexivity.
Defined.

(** ** Integer arguments and results of SQL functions *)

Lemma to_signed_id (bits z : Z) :
  0 < bits -> - 2 ^ (bits - 1) <= z < 2 ^ (bits - 1) -> to_signed bits z = z.
Proof.
  intros Hb Hz. unfold to_signed.
  assert (Hp : 2 ^ bits = 2 * 2 ^ (bits - 1)).
  { replace bits with (Z.succ (bits - 1)) at 1 by lia.
    rewrite Z.pow_succ_r by lia. reflexivity. }
  rewrite Z.mod_small by lia. lia.
Qed.

Lemma to_unsigned_id (bits z : Z) : 0 <= z < 2 ^ bits -> to_unsigned bits z = z.
Proof. intros Hz. unfold to_unsigned. now apply Z.mod_small. Qed.

Ltac powers :=
  repeat match goal with
         | Hp : context [2 ^ ?e] |- _ =>
             let v := eval vm_compute in (2 ^ e) in change (2 ^ e) with v in Hp
         | |- context [2 ^ ?e] =>
             let v := eval vm_compute in (2 ^ e) in change (2 ^ e) with v
         end.

Ltac sizes Hsize :=
  destruct Hsize as [->|[->|[->| ->]]];
  unfold signed_range, unsigned_range in *;
  change (8 * 1) with 8 in *; change (8 * 2) with 16 in *;
  change (8 * 4) with 32 in *; change (8 * 8) with 64 in *;
  powers.

Lemma to_signed_32 (z : Z) : - 2147483648 <= z < 2147483648 -> to_signed 32 z = z.
Proof. intros Hz. apply to_signed_id; [lia|]. powers. lia. Qed.

Lemma to_signed_64 (z : Z) :
  - 9223372036854775808 <= z < 9223372036854775808 -> to_signed 64 z = z.
Proof. intros Hz. apply to_signed_id; [lia|]. powers. lia. Qed.

(** X27: reading an argument as an unsigned type [T] of 1, 2, 4 or 8
    bytes gives a value of [T].  The pinning is applied to what the getter
    that [T] is read through answers, [get_int()] for the types narrower
    than [int] and [get_int64()] for the others: the result is 0 when that
    answer is negative or zero, and the answer itself when it is a value
    of [T].  The other getter has no part in it, so for a narrow [T] a
    negative 64-bit answer is not pinned when [get_int()] is positive. *)
Theorem get_unsigned_pins_negative (size get_int get_int64 : Z) :
  size = 1 \/ size = 2 \/ size = 4 \/ size = 8 ->
  unsigned_range size (get_unsigned size get_int get_int64)
  /\ ((if size <? 4 then get_int else get_int64) <= 0 ->
      get_unsigned size get_int get_int64 = 0)
  /\ (unsigned_range size (if size <? 4 then get_int else get_int64) ->
      get_unsigned size get_int get_int64
      = (if size <? 4 then get_int else get_int64))
  /\ (forall other, get_unsigned size get_int get_int64
                    = if size <? 4 then get_unsigned size get_int other
                      else get_unsigned size other get_int64).
Proof.
  intros Hsize. unfold get_unsigned, to_unsigned.
  sizes Hsize; cbn [Z.ltb Z.compare Pos.compare Pos.compare_cont].
  all: split; [apply Z.mod_pos_bound; lia|].
  all: split; [intros Hneg; rewrite Z.max_l by lia; reflexivity|].
  all: split; [intros Hv; rewrite Z.max_r by lia; apply Z.mod_small; lia|].
  all: reflexivity.
Qed.

(** X28: an integer result read back as an argument of the same type is
    unchanged.  For every signed type of 1, 2, 4 or 8 bytes and every
    unsigned type of 1, 2 or 4 bytes, the value [v] assigned to the result
    reaches the setter as it is, [set_int] for the types that fit an [int]
    and [set_int64] for the others; and when the getters answer for that
    integer, [get_int()] with its low 32 bits and [get_int64()] with the
    integer, [get<T>()] is [v] again.  An 8-byte unsigned value goes to
    [set_uint64] as it is. *)
Theorem integer_result_round_trip (size v : Z) :
  size = 1 \/ size = 2 \/ size = 4 \/ size = 8 ->
  (signed_range size v ->
   assign_signed size v = (if size <=? 4 then set_int v else set_int64 v)
   /\ get_signed size (to_signed 32 v) v = v)
  /\ (unsigned_range size v ->
      assign_unsigned size v
      = (if size <? 4 then set_int v
         else if size <? 8 then set_int64 v else set_uint64 v)
      /\ (size < 8 -> get_unsigned size (to_signed 32 v) v = v)).
Proof.
  intros Hsize. unfold assign_signed, assign_unsigned, get_signed, get_unsigned.
  split.
  - intros Hv. sizes Hsize;
      cbn [Z.leb Z.ltb Z.compare Pos.compare Pos.compare_cont];
      rewrite ?(to_signed_32 v), ?(to_signed_64 v) by lia;
      (split; [reflexivity|]); try reflexivity;
      (apply to_signed_id; [lia|powers; lia]).
  - intros Hv. sizes Hsize;
      cbn [Z.leb Z.ltb Z.compare Pos.compare Pos.compare_cont];
      rewrite ?(to_signed_32 v), ?(to_signed_64 v) by lia;
      (split; [reflexivity|]); intros Hlt; try lia;
      rewrite ?(to_signed_32 v) by lia;
      rewrite Z.max_r by lia; apply to_unsigned_id; powers; lia.
Qed.

(** An [unsigned short] argument for which [get_int()] answers -1. *)
Lemma get_unsigned_pins_negative_witness :
  unsigned_range 2 (get_unsigned 2 (-1) (-1))
  /\ get_unsigned 2 (-1) (-1) = 0.
Proof.
  destruct (get_unsigned_pins_negative 2 (-1) (-1)) as (Hrange & Hneg & _);
    [auto|].
  split; [exact Hrange|]. apply Hneg. vm_compute. discriminate.
Defined.

(** Read as [uint8_t], an argument for which [get_int()] answers
    2147483647 while [get_int64()] answers -2147483649 is 255, not 0. *)
Example get_unsigned_narrow_ignores_int64 :
  get_unsigned 1 2147483647 (-2147483649) = 255.
Proof. reflexivity. Qed.

(** The value 2000000000 as an [int] result and as an [unsigned]
    result. *)
Lemma integer_result_round_trip_witness :
  (assign_signed 4 2000000000 = set_int 2000000000
   /\ get_signed 4 (to_signed 32 2000000000) 2000000000 = 2000000000)
  /\ (assign_unsigned 4 2000000000 = set_int64 2000000000
      /\ get_unsigned 4 (to_signed 32 2000000000) 2000000000 = 2000000000).
Proof.
  destruct (integer_result_round_trip 4 2000000000) as (Hs & Hu); [auto|].
  split.
  - apply Hs. vm_compute. split; [discriminate|reflexivity].
  - destruct Hu as (Hset & Hget); [vm_compute; split; [discriminate|reflexivity]|].
    split; [exact Hset|]. apply Hget. reflexivity.
Defined.

(** The [unsigned] result 4000000000 does not fit an [int]: it travels as
    a 64-bit integer and comes back as it was, while read as an [int] it
    is negative. *)
Example unsigned_result_round_trip :
  assign_unsigned 4 4000000000 = set_int64 4000000000
  /\ get_unsigned 4 (to_signed 32 4000000000) 4000000000 = 4000000000
  /\ get_signed 4 (to_signed 32 4000000000) 4000000000 = -294967296.
Proof. repeat split. Qed.
